(** * AMSKY01 API weather driver: model and properties

    A shallow embedding of [drivers/weather/AMSKY01/amsky01_api.cpp] and
    [amsky01_api.h].  The driver object is a record, its methods are
    computations in a state-and-exception monad over that record, and every
    call the driver makes into the INDI framework or into libcurl is
    appended to a trace kept in the record. *)

From Stdlib Require Import ZArith Bool Ascii Lia.
From Stdlib Require Import Floats.SpecFloat.
From stdpp Require Import base list strings.

Open Scope string_scope.
Open Scope Z_scope.

(** ** C++ [double]

    IEEE-754 binary64 values as the Standard Library's [spec_float].  The
    driver never computes with doubles, it stores the ones that jsoncpp
    hands over; the only conversions are the [static_cast<double>] of an
    integer (round to nearest, ties to even) inside [Value::asDouble]. *)

Definition double : Type := spec_float.

Definition double_of_Z (z : Z) : double := binary_normalize 53 1024 z 0 false.

(** The literals [0.0] and [1.0]. *)
Definition d0 : double := S754_zero false.
Definition d1 : double := double_of_Z 1.

(** ** Values that may raise a C++ exception *)

Inductive Result (A : Type) : Type :=
| Ret (a : A)
| Throw (what : string).
Arguments Ret {A} a.
Arguments Throw {A} what.

(** ** The part of jsoncpp's [Json::Value] interface the driver calls

    jsoncpp is a library the driver links against.  Its behaviour is
    written down here as documented in its reference manual and as
    implemented in [json_value.cpp]: [find] (and so [isMember] and the two
    subscript operators) insists on a null or object receiver, [asDouble]
    converts integers, reals, null and booleans and fails on anything else,
    and a failure is a [Json::LogicError], which derives from
    [std::exception]. *)

Module Json.

#[warnings="-register-all"]
Inductive Value : Type :=
| nullValue
| intValue (i : Z)
| uintValue (u : Z)
| realValue (r : double)
| stringValue (s : string)
| booleanValue (b : bool)
| arrayValue (elems : list Value)
| objectValue (members : list (string * Value)).

(** Member lookup in an object: the members of a [Json::Value] object form
    a [std::map], here an association list read from the front. *)
Fixpoint lookup_member (key : string) (members : list (string * Value))
  : option Value :=
  match members with
  | [] => None
  | (k, v) :: rest => if String.eqb k key then Some v else lookup_member key rest
  end.

(** [Value::find(begin, end)] *)
Definition find (v : Value) (key : string) : Result (option Value) :=
  match v with
  | nullValue => Ret None
  | objectValue members => Ret (lookup_member key members)
  | _ => Throw "in Json::Value::find(begin, end): requires objectValue or nullValue"
  end.

(** [Value::isMember(key)] *)
Definition isMember (v : Value) (key : string) : Result bool :=
  match find v key with
  | Ret found => Ret (bool_decide (is_Some found))
  | Throw e => Throw e
  end.

(** [Value::operator[](key)], reading a member.  On a [const] receiver a
    missing member reads as the null singleton; the driver applies the
    non-const operator only to a member that [isMember] has just found, so
    both operators read the same value. *)
Definition subscript (v : Value) (key : string) : Result Value :=
  match find v key with
  | Ret (Some member) => Ret member
  | Ret None => Ret nullValue
  | Throw e => Throw e
  end.

Definition isNull (v : Value) : bool :=
  match v with nullValue => true | _ => false end.

Definition isObject (v : Value) : bool :=
  match v with objectValue _ => true | _ => false end.

(** [Value::isNumeric()]: an integer or a real. *)
Definition isNumeric (v : Value) : bool :=
  match v with intValue _ | uintValue _ | realValue _ => true | _ => false end.

(** [Value::asDouble()] *)
Definition asDouble (v : Value) : Result double :=
  match v with
  | intValue i => Ret (double_of_Z i)
  | uintValue u => Ret (double_of_Z u)
  | realValue r => Ret r
  | nullValue => Ret d0
  | booleanValue b => Ret (if b then d1 else d0)
  | _ => Throw "Value is not convertible to double."
  end.

End Json.

(** ** The driver object *)

(** [IPState] of the INDI API. *)
Inductive IPState : Type := IPS_IDLE | IPS_OK | IPS_BUSY | IPS_ALERT.

(** The anonymous struct [weatherData] of [amsky01_api.h]. *)
Record WeatherData : Type := mkWeatherData {
  temperature : double;
  humidity : double;
  dewPoint : double;
  lux : double;
  skyBrightness : double;
  cloudTemp : list double;
  avgCloudTemp : double;
  dataValid : bool
}.

(** What one libcurl transfer yields: whether [curl_easy_init] returned a
    handle, the [CURLcode] of [curl_easy_perform], the response code read
    with [CURLINFO_RESPONSE_CODE] and the bytes [WriteCallback] gathered in
    [readBuffer]. *)
Record Transfer : Type := mkTransfer {
  curl : bool;
  res : Z;
  http_code : Z;
  readBuffer : string
}.

Definition CURLE_OK : Z := 0.

Inductive LogLevel : Type := INFO | WARN | ERROR | DEBUG.

(** One constructor per logging statement of the driver, with the
    arguments of its format string. *)
Inductive LogMsg : Type :=
| Device_connected_starting_API_polling
| Device_disconnected
| Attempting_to_connect_to_API
| Successfully_connected_to_API
| Failed_to_connect_to_API_at (url : string)
| Disconnected_from_API
| API_URL_set_to (url : string)
| Failed_to_initialize_CURL
| curl_easy_perform_failed (code : Z)
| HTTP_request_failed_with_code (code : Z)
| Received_JSON_data (body : string)
| Failed_to_parse_JSON (errs : string)
| Parsed_data (temp hum lx sqm : double)
| Exception_while_parsing_JSON (what : string)
| No_valid_weather_data_available.

(** Calls that leave the driver: into the [INDI::Weather] base class, the
    INDI property API, the timer, the logger and libcurl. *)
Inductive HostCall : Type :=
| Weather_initProperties
| Weather_updateProperties
| Weather_ISNewText (dev : option string) (name : string)
                    (texts names : list string)
| addParameter (name label : string) (min max perc : Z)
| setCriticalParameter (name : string)
| setParameterValue (name : string) (value : double)
| addDebugControl
| addConfigurationControl
| addAuxControls
| defineProperty (name : string)
| deleteProperty (name : string)
| IDSetText (name : string) (s : IPState)
| SetTimer (ms : Z)
| curl_easy_perform (url : string)
| setWeatherConnection_CONNECTION_NONE
| setVersion (vMajor vMinor : Z)
| LOG (level : LogLevel) (msg : LogMsg).

Record Driver : Type := mkDriver {
  weatherData : WeatherData;
  apiUrl : string;
  ApiUrlT0 : string;            (* ApiUrlT[0].text *)
  ApiUrlTP_s : IPState;         (* ApiUrlTP.s *)
  StatusT1 : string;            (* StatusT[1].text *)
  StatusTP_s : IPState;         (* StatusTP.s *)
  ApiUrlTP_name : string;       (* ApiUrlTP.name *)
  StatusTP_name : string;       (* StatusTP.name *)
  deviceName : string;          (* getDeviceName() *)
  connected : bool;             (* isConnected() *)
  pollingPeriod : Z;            (* getCurrentPollingPeriod() *)
  calls : list HostCall
}.

(** The member initialisers of [amsky01_api.h]. *)
Definition weatherData0 : WeatherData :=
  {| temperature := d0; humidity := d0; dewPoint := d0;
     lux := d0; skyBrightness := d0;
     cloudTemp := replicate 5 d0; avgCloudTemp := d0;
     dataValid := false |}.

(** [getDefaultName] *)
Definition getDefaultName : string := "AMSKY01 API".

(** The one instance of the driver, as the constructor [AMSKY01_API()]
    leaves it: the two calls of its body are made, the device is
    disconnected and the framework's polling period is its default of one
    second.  The two text vectors have no initialiser and are filled by
    [initProperties] only; until then their names and texts are taken as
    empty. *)
Definition amsky01_api : Driver :=
  {| weatherData := weatherData0;
     apiUrl := "http://localhost:8080/data.json";
     ApiUrlT0 := ""; ApiUrlTP_s := IPS_IDLE;
     StatusT1 := ""; StatusTP_s := IPS_IDLE;
     ApiUrlTP_name := ""; StatusTP_name := "";
     deviceName := getDefaultName;
     connected := false;
     pollingPeriod := 1000;
     calls := [setWeatherConnection_CONNECTION_NONE; setVersion 1 0] |}.

(** ** The monad of driver methods: state, and exceptions that keep the
    state reached when they were thrown *)

Definition M (A : Type) : Type := Driver -> Result A * Driver.

Definition ret {A} (a : A) : M A := fun d => (Ret a, d).

Definition bind {A B} (m : M A) (k : A -> M B) : M B :=
  fun d => match m d with
           | (Ret a, d') => k a d'
           | (Throw e, d') => (Throw e, d')
           end.

(** A jsoncpp call inside a method. *)
Definition lift {A} (r : Result A) : M A := fun d => (r, d).

(** [try { body } catch (const std::exception& e) { handler }] *)
Definition try_catch {A} (body : M A) (handler : string -> M A) : M A :=
  fun d => match body d with
           | (Ret a, d') => (Ret a, d')
           | (Throw e, d') => handler e d'
           end.

Declare Scope driver_scope.
Delimit Scope driver_scope with driver.
Notation "x <- m ;; k" := (bind m (fun x => k))
  (at level 100, m at next level, k at level 200, right associativity)
  : driver_scope.
Notation "m ;; k" := (bind m (fun _ => k))
  (at level 100, k at level 200, right associativity) : driver_scope.
Open Scope driver_scope.

(** [if (c) body] *)
Definition when (c : bool) (body : M unit) : M unit :=
  if c then body else ret tt.

(** A call out of the driver whose arguments are read from the driver's
    fields at the time of the call. *)
Definition call (c : Driver -> HostCall) : M unit :=
  fun d =>
    (Ret tt,
     mkDriver (weatherData d) (apiUrl d) (ApiUrlT0 d) (ApiUrlTP_s d)
              (StatusT1 d) (StatusTP_s d) (ApiUrlTP_name d) (StatusTP_name d)
              (deviceName d) (connected d) (pollingPeriod d)
              (calls d ++ [c d])).

Definition modify_weatherData (f : WeatherData -> WeatherData) : M unit :=
  fun d =>
    (Ret tt,
     mkDriver (f (weatherData d)) (apiUrl d) (ApiUrlT0 d) (ApiUrlTP_s d)
              (StatusT1 d) (StatusTP_s d) (ApiUrlTP_name d) (StatusTP_name d)
              (deviceName d) (connected d) (pollingPeriod d) (calls d)).

(** Assignments to the members of [weatherData]. *)
Definition set_temperature (x : double) : M unit :=
  modify_weatherData (fun w =>
    mkWeatherData x (humidity w) (dewPoint w) (lux w) (skyBrightness w)
                  (cloudTemp w) (avgCloudTemp w) (dataValid w)).
Definition set_humidity (x : double) : M unit :=
  modify_weatherData (fun w =>
    mkWeatherData (temperature w) x (dewPoint w) (lux w) (skyBrightness w)
                  (cloudTemp w) (avgCloudTemp w) (dataValid w)).
Definition set_dewPoint (x : double) : M unit :=
  modify_weatherData (fun w =>
    mkWeatherData (temperature w) (humidity w) x (lux w) (skyBrightness w)
                  (cloudTemp w) (avgCloudTemp w) (dataValid w)).
Definition set_lux (x : double) : M unit :=
  modify_weatherData (fun w =>
    mkWeatherData (temperature w) (humidity w) (dewPoint w) x (skyBrightness w)
                  (cloudTemp w) (avgCloudTemp w) (dataValid w)).
Definition set_skyBrightness (x : double) : M unit :=
  modify_weatherData (fun w =>
    mkWeatherData (temperature w) (humidity w) (dewPoint w) (lux w) x
                  (cloudTemp w) (avgCloudTemp w) (dataValid w)).
(** [weatherData.cloudTemp[i] = x] *)
Definition set_cloudTemp (i : nat) (x : double) : M unit :=
  modify_weatherData (fun w =>
    mkWeatherData (temperature w) (humidity w) (dewPoint w) (lux w)
                  (skyBrightness w) (<[i := x]> (cloudTemp w))
                  (avgCloudTemp w) (dataValid w)).
Definition set_dataValid (b : bool) : M unit :=
  modify_weatherData (fun w =>
    mkWeatherData (temperature w) (humidity w) (dewPoint w) (lux w)
                  (skyBrightness w) (cloudTemp w) (avgCloudTemp w) b).

(** [weatherData.cloudTemp[i]], read; the driver only reads slot 4 of 5. *)
Definition get_cloudTemp (i : nat) (w : WeatherData) : double :=
  default d0 (cloudTemp w !! i).

Definition gets {A} (f : Driver -> A) : M A := fun d => (Ret (f d), d).

(** A call out of the driver with constant arguments, and the logging
    macros. *)
Definition emit (c : HostCall) : M unit := call (fun _ => c).
Definition LOG_INFO (msg : LogMsg) : M unit := emit (LOG INFO msg).
Definition LOG_WARN (msg : LogMsg) : M unit := emit (LOG WARN msg).
Definition LOG_ERROR (msg : LogMsg) : M unit := emit (LOG ERROR msg).
Definition LOG_DEBUG (msg : LogMsg) : M unit := emit (LOG DEBUG msg).

(** Assignments to the other members of the driver. *)
Definition set_apiUrl (x : string) : M unit :=
  fun d => (Ret tt,
    mkDriver (weatherData d) x (ApiUrlT0 d) (ApiUrlTP_s d) (StatusT1 d)
             (StatusTP_s d) (ApiUrlTP_name d) (StatusTP_name d)
             (deviceName d) (connected d) (pollingPeriod d)
             (calls d)).
Definition set_ApiUrlT0 (x : string) : M unit :=
  fun d => (Ret tt,
    mkDriver (weatherData d) (apiUrl d) x (ApiUrlTP_s d) (StatusT1 d)
             (StatusTP_s d) (ApiUrlTP_name d) (StatusTP_name d)
             (deviceName d) (connected d) (pollingPeriod d)
             (calls d)).
Definition set_ApiUrlTP_s (x : IPState) : M unit :=
  fun d => (Ret tt,
    mkDriver (weatherData d) (apiUrl d) (ApiUrlT0 d) x (StatusT1 d)
             (StatusTP_s d) (ApiUrlTP_name d) (StatusTP_name d)
             (deviceName d) (connected d) (pollingPeriod d)
             (calls d)).
Definition set_StatusT1 (x : string) : M unit :=
  fun d => (Ret tt,
    mkDriver (weatherData d) (apiUrl d) (ApiUrlT0 d) (ApiUrlTP_s d) x
             (StatusTP_s d) (ApiUrlTP_name d) (StatusTP_name d)
             (deviceName d) (connected d) (pollingPeriod d)
             (calls d)).
Definition set_StatusTP_s (x : IPState) : M unit :=
  fun d => (Ret tt,
    mkDriver (weatherData d) (apiUrl d) (ApiUrlT0 d) (ApiUrlTP_s d)
             (StatusT1 d) x (ApiUrlTP_name d) (StatusTP_name d)
             (deviceName d) (connected d) (pollingPeriod d)
             (calls d)).
Definition set_ApiUrlTP_name (x : string) : M unit :=
  fun d => (Ret tt,
    mkDriver (weatherData d) (apiUrl d) (ApiUrlT0 d) (ApiUrlTP_s d)
             (StatusT1 d) (StatusTP_s d) x (StatusTP_name d)
             (deviceName d) (connected d) (pollingPeriod d)
             (calls d)).
Definition set_StatusTP_name (x : string) : M unit :=
  fun d => (Ret tt,
    mkDriver (weatherData d) (apiUrl d) (ApiUrlT0 d) (ApiUrlTP_s d)
             (StatusT1 d) (StatusTP_s d) (ApiUrlTP_name d) x
             (deviceName d) (connected d) (pollingPeriod d)
             (calls d)).

(** ** The methods of [AMSKY01_API] *)

(** [initProperties] *)
Definition initProperties : M bool :=
  emit Weather_initProperties;;
  emit (addParameter "WEATHER_TEMPERATURE" "Temperature (°C)" (-50) 80 15);;
  emit (addParameter "WEATHER_HUMIDITY" "Humidity (%)" 0 100 15);;
  emit (addParameter "WEATHER_DEW_POINT" "Dew Point (°C)" (-50) 50 15);;
  emit (addParameter "WEATHER_LIGHT_LUX" "Light (lux)" 0 100000 15);;
  emit (addParameter "WEATHER_SKY_BRIGHTNESS" "Sky Brightness (mag/arcsec²)"
                     10 25 15);;
  emit (addParameter "WEATHER_SKY_TEMP_CENTER" "Sky Temp Center (°C)"
                     (-50) 50 15);;
  emit (setCriticalParameter "WEATHER_TEMPERATURE");;
  emit (setCriticalParameter "WEATHER_HUMIDITY");;
  emit (setCriticalParameter "WEATHER_DEW_POINT");;
  emit (setCriticalParameter "WEATHER_SKY_TEMP_CENTER");;
  url <- gets apiUrl;;
  set_ApiUrlT0 url;;
  set_ApiUrlTP_name "API_CONFIG";;
  set_ApiUrlTP_s IPS_IDLE;;
  set_StatusT1 "Disconnected";;
  set_StatusTP_name "DEVICE_STATUS";;
  set_StatusTP_s IPS_IDLE;;
  emit addDebugControl;;
  emit addConfigurationControl;;
  emit addAuxControls;;
  ret true.

(** [updateProperties] *)
Definition updateProperties : M bool :=
  emit Weather_updateProperties;;
  isConnected <- gets connected;;
  (if isConnected then
     call (fun d => defineProperty (StatusTP_name d));;
     call (fun d => defineProperty (ApiUrlTP_name d));;
     set_StatusT1 "Connected - Reading API";;
     set_StatusTP_s IPS_OK;;
     call (fun d => IDSetText (StatusTP_name d) IPS_OK);;
     LOG_INFO Device_connected_starting_API_polling;;
     emit (SetTimer 2000)
   else
     call (fun d => deleteProperty (StatusTP_name d));;
     call (fun d => deleteProperty (ApiUrlTP_name d));;
     LOG_INFO Device_disconnected);;
  ret true.

(** [Disconnect] *)
Definition Disconnect : M bool :=
  LOG_INFO Disconnected_from_API;;
  ret true.

(** [updateWeather] *)
Definition updateWeather : M IPState :=
  valid <- gets (fun d => dataValid (weatherData d));;
  if negb valid then
    LOG_WARN No_valid_weather_data_available;;
    ret IPS_ALERT
  else
    ret IPS_OK.

(** The three blocks of the [try] statement of [parseJSONData], under the
    comments that open them in the source. *)

(** [// Parse hygro data] *)
Definition parse_hygro_data (root : Json.Value) : M unit :=
  isMember <- lift (Json.isMember root "hygro");;
  isObject <- (if isMember
               then member <- lift (Json.subscript root "hygro");;
                    ret (Json.isObject member)
               else ret false);;
  when isObject
   (hygro <- lift (Json.subscript root "hygro");;
    temp <- lift (Json.subscript hygro "temp");;
    when (negb (Json.isNull temp))
         (x <- lift (Json.asDouble temp);; set_temperature x);;
    rh <- lift (Json.subscript hygro "rh");;
    when (negb (Json.isNull rh))
         (x <- lift (Json.asDouble rh);; set_humidity x);;
    dew_point <- lift (Json.subscript hygro "dew_point");;
    when (negb (Json.isNull dew_point))
         (x <- lift (Json.asDouble dew_point);; set_dewPoint x);;
    call (fun d => setParameterValue "WEATHER_TEMPERATURE"
                                     (temperature (weatherData d)));;
    call (fun d => setParameterValue "WEATHER_HUMIDITY"
                                     (humidity (weatherData d)));;
    call (fun d => setParameterValue "WEATHER_DEW_POINT"
                                     (dewPoint (weatherData d)))).

(** [// Parse light data] *)
Definition parse_light_data (root : Json.Value) : M unit :=
  isMember <- lift (Json.isMember root "light");;
  isObject <- (if isMember
               then member <- lift (Json.subscript root "light");;
                    ret (Json.isObject member)
               else ret false);;
  when isObject
   (light <- lift (Json.subscript root "light");;
    lx <- lift (Json.subscript light "lux");;
    when (negb (Json.isNull lx))
         (x <- lift (Json.asDouble lx);; set_lux x);;
    sqm <- lift (Json.subscript light "sqm");;
    when (negb (Json.isNull sqm))
         (x <- lift (Json.asDouble sqm);; set_skyBrightness x);;
    call (fun d => setParameterValue "WEATHER_LIGHT_LUX"
                                     (lux (weatherData d)));;
    call (fun d => setParameterValue "WEATHER_SKY_BRIGHTNESS"
                                     (skyBrightness (weatherData d)))).

(** [// Parse cloud data] *)
Definition parse_cloud_data (root : Json.Value) : M unit :=
  isMember <- lift (Json.isMember root "cloud");;
  isObject <- (if isMember
               then member <- lift (Json.subscript root "cloud");;
                    ret (Json.isObject member)
               else ret false);;
  when isObject
   (cloud <- lift (Json.subscript root "cloud");;
    center <- lift (Json.subscript cloud "center");;
    when (negb (Json.isNull center))
     (x <- lift (Json.asDouble center);;
      set_cloudTemp 4 x;;
      call (fun d => setParameterValue "WEATHER_SKY_TEMP_CENTER"
                                       (get_cloudTemp 4 (weatherData d))))).

Section Reader.

(** [Json::parseFromStream] with a default [Json::CharReaderBuilder]: the
    document tree of a text it accepts, or the error text [errs] of one it
    rejects; or the exception it throws, as it does with a
    [Json::RuntimeError] on a text nested deeper than its [stackLimit].
    The reader of jsoncpp is not part of the driver; the methods below
    take it as given. *)
Variable parseFromStream : string -> Result (Json.Value + string).

(** [parseJSONData].  The reader is called before the [try] statement: an
    exception it throws leaves the method. *)
Definition parseJSONData (jsonData : string) : M bool :=
  parsed <- lift (parseFromStream jsonData);;
  match parsed with
  | inr errs =>
      LOG_ERROR (Failed_to_parse_JSON errs);;
      ret false
  | inl root =>
      try_catch
        (parse_hygro_data root;;
         parse_light_data root;;
         parse_cloud_data root;;
         set_dataValid true;;
         call (fun d =>
                 LOG DEBUG (Parsed_data (temperature (weatherData d))
                                        (humidity (weatherData d))
                                        (lux (weatherData d))
                                        (skyBrightness (weatherData d))));;
         ret true)
        (fun what =>
           LOG_ERROR (Exception_while_parsing_JSON what);;
           ret false)
  end.

(** [readHTTPData].  [net] is what libcurl would yield at this moment for
    a transfer from the given URL. *)
Definition readHTTPData (net : string -> Transfer) : M bool :=
  url <- gets apiUrl;;
  let transfer := net url in
  if negb (curl transfer) then
    LOG_ERROR Failed_to_initialize_CURL;;
    ret false
  else
    emit (curl_easy_perform url);;
    if negb (res transfer =? CURLE_OK) then
      LOG_ERROR (curl_easy_perform_failed (res transfer));;
      ret false
    else if negb (http_code transfer =? 200) then
      LOG_ERROR (HTTP_request_failed_with_code (http_code transfer));;
      ret false
    else
      LOG_DEBUG (Received_JSON_data (readBuffer transfer));;
      parseJSONData (readBuffer transfer).

(** [Connect] *)
Definition Connect (net : string -> Transfer) : M bool :=
  LOG_INFO Attempting_to_connect_to_API;;
  ok <- readHTTPData net;;
  if ok then
    LOG_INFO Successfully_connected_to_API;;
    ret true
  else
    call (fun d => LOG ERROR (Failed_to_connect_to_API_at (apiUrl d)));;
    ret false.

(** [TimerHit] *)
Definition TimerHit (net : string -> Transfer) : M unit :=
  isConnected <- gets connected;;
  if negb isConnected then
    call (fun d => SetTimer (pollingPeriod d))
  else
    readHTTPData net;;
    call (fun d => SetTimer (pollingPeriod d)).

(** [IUUpdateText] on [ApiUrlTP] as [initProperties] fills it, with the
    one member [API_URL]: nothing is stored unless every name is a member,
    then every text is saved into the member it names. *)
Definition IUUpdateText_ApiUrlTP (texts names : list string) : M unit :=
  if forallb (String.eqb "API_URL") names then
    foldr (fun text k => set_ApiUrlT0 text;; k) (ret tt)
          (take (length names) texts)
  else
    set_ApiUrlTP_s IPS_IDLE;;
    call (fun d => IDSetText (ApiUrlTP_name d) IPS_IDLE).

(** [ISNewText].  [dev] is [None] for a null pointer; [inherited] is what
    [INDI::Weather::ISNewText] answers when the call is passed on. *)
Definition ISNewText (inherited : bool) (dev : option string) (name : string)
                     (texts names : list string) : M bool :=
  me <- gets deviceName;;
  property <- gets ApiUrlTP_name;;
  if bool_decide (dev = Some me) && String.eqb name property then
    IUUpdateText_ApiUrlTP texts names;;
    text <- gets ApiUrlT0;;
    set_apiUrl text;;
    set_ApiUrlTP_s IPS_OK;;
    call (fun d => IDSetText (ApiUrlTP_name d) IPS_OK);;
    call (fun d => LOG INFO (API_URL_set_to (apiUrl d)));;
    ret true
  else
    emit (Weather_ISNewText dev name texts names);;
    ret inherited.

(** *** The driver in the hands of the framework

    The framework drives the object through its overridden methods, and
    between two of them it may change what [isConnected] and
    [getCurrentPollingPeriod] answer.  [parseJSONData] and [readHTTPData]
    are private: they run only inside [Connect] and [TimerHit].  [run]
    gives the driver as a callback leaves it, be it by returning or by an
    exception: the members keep what was assigned before the exception. *)
Inductive Callback : Type :=
| cb_initProperties
| cb_updateProperties
| cb_Connect (net : string -> Transfer)
| cb_Disconnect
| cb_TimerHit (net : string -> Transfer)
| cb_ISNewText (inherited : bool) (dev : option string) (name : string)
               (texts names : list string)
| cb_updateWeather
| cb_framework (isConnected : bool) (period : Z).

Definition run (cb : Callback) (d : Driver) : Driver :=
  match cb with
  | cb_initProperties => snd (initProperties d)
  | cb_updateProperties => snd (updateProperties d)
  | cb_Connect net => snd (Connect net d)
  | cb_Disconnect => snd (Disconnect d)
  | cb_TimerHit net => snd (TimerHit net d)
  | cb_ISNewText inherited dev name texts names =>
      snd (ISNewText inherited dev name texts names d)
  | cb_updateWeather => snd (updateWeather d)
  | cb_framework isConnected period =>
      mkDriver (weatherData d) (apiUrl d) (ApiUrlT0 d) (ApiUrlTP_s d)
               (StatusT1 d) (StatusTP_s d) (ApiUrlTP_name d)
               (StatusTP_name d) (deviceName d) isConnected period (calls d)
  end.

Definition runs (cbs : list Callback) (d : Driver) : Driver :=
  foldl (fun d cb => run cb d) d cbs.

(** Whether a computation returned [true]. *)
Definition returned_true (r : Result bool) : bool :=
  match r with Ret true => true | _ => false end.

(** Whether the callback polls the endpoint and the poll succeeds:
    [Connect] returns what its poll returns, [TimerHit] polls when the
    device is connected. *)
Definition poll_succeeds (cb : Callback) (d : Driver) : bool :=
  match cb with
  | cb_Connect net => returned_true (fst (Connect net d))
  | cb_TimerHit net => connected d && returned_true (fst (readHTTPData net d))
  | _ => false
  end.

(** Whether some poll succeeds while the callbacks run one after the
    other from [d]. *)
Fixpoint some_poll_succeeds (cbs : list Callback) (d : Driver) : bool :=
  match cbs with
  | [] => false
  | cb :: rest => poll_succeeds cb d || some_poll_succeeds rest (run cb d)
  end.

End Reader.

(** ** Documents on which field extraction completes

    Not part of the driver: the shape of the document trees on which the
    [try] block of [parseJSONData] raises no exception. *)

(** A value [asDouble] converts. *)
Definition convertible (v : Json.Value) : bool :=
  match v with
  | Json.stringValue _ | Json.arrayValue _ | Json.objectValue _ => false
  | _ => true
  end.

(** The namespace [ns] of [root] is absent, is not an object, or each of
    its members named in [keys] is absent or convertible. *)
Definition namespace_ok (root : Json.Value) (ns : string) (keys : list string)
  : bool :=
  match Json.find root ns with
  | Throw _ => false
  | Ret None => true
  | Ret (Some (Json.objectValue members)) =>
      forallb (fun key => match Json.lookup_member key members with
                          | Some v => convertible v
                          | None => true
                          end) keys
  | Ret (Some _) => true
  end.

Definition extractable (root : Json.Value) : bool :=
  namespace_ok root "hygro" ["temp"; "rh"; "dew_point"]
  && namespace_ok root "light" ["lux"; "sqm"]
  && namespace_ok root "cloud" ["center"].

(** ** Footprints

    The means by which the properties of [parseJSONData] are proved: a
    computation is summarised by the result it returns, the members of
    [weatherData] it assigns and the values it assigns to them. *)

Inductive Field : Type :=
| f_temperature | f_humidity | f_dewPoint | f_lux | f_skyBrightness
| f_center.

Definition same_field (f g : Field) : bool :=
  match f, g with
  | f_temperature, f_temperature | f_humidity, f_humidity
  | f_dewPoint, f_dewPoint | f_lux, f_lux
  | f_skyBrightness, f_skyBrightness | f_center, f_center => true
  | _, _ => false
  end.

(** The assignments a computation makes: a value for each member it
    assigns, and whether it sets [dataValid]. *)
Record Patch : Type := mkPatch {
  assigned : Field -> option double;
  validated : bool
}.

Definition patch (p : Patch) (w : WeatherData) : WeatherData :=
  mkWeatherData
    (default (temperature w) (assigned p f_temperature))
    (default (humidity w) (assigned p f_humidity))
    (default (dewPoint w) (assigned p f_dewPoint))
    (default (lux w) (assigned p f_lux))
    (default (skyBrightness w) (assigned p f_skyBrightness))
    (match assigned p f_center with
     | Some x => <[4%nat := x]> (cloudTemp w)
     | None => cloudTemp w
     end)
    (avgCloudTemp w)
    (validated p || dataValid w).

(** The driver after the assignments of [p] and the calls [evs]. *)
Definition touch (p : Patch) (evs : list HostCall) (d : Driver) : Driver :=
  mkDriver (patch p (weatherData d)) (apiUrl d) (ApiUrlT0 d) (ApiUrlTP_s d)
           (StatusT1 d) (StatusTP_s d) (ApiUrlTP_name d) (StatusTP_name d)
           (deviceName d) (connected d) (pollingPeriod d) (calls d ++ evs).

Definition no_patch : Patch := mkPatch (fun _ => None) false.

Definition assign (f : Field) (x : double) : Patch :=
  mkPatch (fun g => if same_field g f then Some x else None) false.

Definition validate : Patch := mkPatch (fun _ => None) true.

(** The assignments of [p] followed by those of [q]. *)
Definition over (q p : Patch) : Patch :=
  mkPatch (fun f => match assigned q f with
                    | Some x => Some x
                    | None => assigned p f
                    end)
          (validated q || validated p).

(** The calls the parser makes: it publishes parameters and it logs. *)
Definition quiet (c : HostCall) : Prop :=
  match c with
  | setParameterValue _ _ | LOG _ _ => True
  | _ => False
  end.

(** [m] returns [o] and assigns [p], whatever the driver it starts from,
    and the calls it makes are quiet. *)
Definition effect {A} (m : M A) (o : Result A) (p : Patch) : Prop :=
  forall d, exists evs, Forall quiet evs /\ m d = (o, touch p evs d).

(** [m] has an effect, and the effect satisfies [Q]. *)
Definition wp {A} (m : M A) (Q : Result A -> Patch -> Prop) : Prop :=
  exists o p, effect m o p /\ Q o p.

(** [p] assigns only members of [fs], and does not set [dataValid]. *)
Definition within (fs : Field -> bool) (p : Patch) : Prop :=
  (forall f, fs f = false -> assigned p f = None) /\ validated p = false.

Definition hygro_fields (f : Field) : bool :=
  match f with f_temperature | f_humidity | f_dewPoint => true | _ => false end.
Definition light_fields (f : Field) : bool :=
  match f with f_lux | f_skyBrightness => true | _ => false end.
Definition cloud_fields (f : Field) : bool :=
  match f with f_center => true | _ => false end.

(** The namespace and the key a member of [weatherData] is read from. *)
Definition source (f : Field) : string * string :=
  match f with
  | f_temperature => ("hygro", "temp")
  | f_humidity => ("hygro", "rh")
  | f_dewPoint => ("hygro", "dew_point")
  | f_lux => ("light", "lux")
  | f_skyBrightness => ("light", "sqm")
  | f_center => ("cloud", "center")
  end.

(** The value a document provides for a member of [weatherData]: its
    namespace is an object, its key is a member there, the member is not
    null and [asDouble] converts it. *)
Definition provided (root : Json.Value) (f : Field) : option double :=
  match Json.find root (fst (source f)) with
  | Ret (Some (Json.objectValue members)) =>
      match Json.lookup_member (snd (source f)) members with
      | Some v =>
          if Json.isNull v then None
          else match Json.asDouble v with Ret x => Some x | Throw _ => None end
      | None => None
      end
  | _ => None
  end.

(** [p] assigns nothing but what the document provides. *)
Definition sound (root : Json.Value) (p : Patch) : Prop :=
  forall f x, assigned p f = Some x -> provided root f = Some x.

(** What a block of the parser may do to the members [fs] it is about:
    it assigns no other member, it assigns nothing but what the document
    provides, if it completes it assigns all the document provides, and
    if it throws it has not assigned slot 4 of [cloudTemp]. *)
Definition block_post (fs : Field -> bool) (root : Json.Value)
    (o : Result unit) (p : Patch) : Prop :=
  within fs p
  /\ (forall f, fs f = true ->
        (forall x, assigned p f = Some x -> provided root f = Some x)
        /\ (o = Ret tt -> assigned p f = provided root f))
  /\ (forall e, o = Throw e -> assigned p f_center = None).

(** The assignments of a parse that succeeds. *)
Definition extracted (root : Json.Value) : Patch :=
  mkPatch (provided root) true.

(** Whether [parseJSONData] succeeds on a text: the reader accepts it and
    extraction completes on its tree. *)
Definition parses (reader : string -> Result (Json.Value + string))
    (jsonData : string) : bool :=
  match reader jsonData with
  | Ret (inl root) => extractable root
  | _ => false
  end.

(** What [parseJSONData] returns on a text: [false] for a text the reader
    rejects, for one it accepts whether extraction completes; and the
    exception of the reader goes on. *)
Definition parse_result (reader : string -> Result (Json.Value + string))
    (jsonData : string) : Result bool :=
  match reader jsonData with
  | Ret (inl root) => Ret (extractable root)
  | Ret (inr _) => Ret false
  | Throw what => Throw what
  end.

(** The assignments [p] are read from the text [jsonData]. *)
Definition drawn_from (reader : string -> Result (Json.Value + string))
    (jsonData : string) (p : Patch) : Prop :=
  match reader jsonData with
  | Ret (inl root) =>
      sound root p
      /\ (extractable root = true -> forall f, assigned p f = provided root f)
  | _ => forall f, assigned p f = None
  end.

(** Whether a transfer completed with status 200. *)
Definition transferred (t : Transfer) : bool :=
  curl t && (res t =? CURLE_OK) && (http_code t =? 200).

(** Whether [readHTTPData] succeeds on a transfer. *)
Definition polls (reader : string -> Result (Json.Value + string))
    (t : Transfer) : bool :=
  transferred t && parses reader (readBuffer t).

(** What [readHTTPData] returns on a transfer. *)
Definition poll_result (reader : string -> Result (Json.Value + string))
    (t : Transfer) : Result bool :=
  if transferred t then parse_result reader (readBuffer t) else Ret false.

(** Whether a namespace of the document is an object. *)
Definition is_namespace (root : Json.Value) (ns : string) : bool :=
  match Json.find root ns with
  | Ret (Some (Json.objectValue _)) => true
  | _ => false
  end.

(** The parameters a parse publishes when it succeeds, with the values
    the snapshot [w] holds. *)
Definition publications (root : Json.Value) (w : WeatherData) : list HostCall :=
  (if is_namespace root "hygro"
   then [setParameterValue "WEATHER_TEMPERATURE" (temperature w);
         setParameterValue "WEATHER_HUMIDITY" (humidity w);
         setParameterValue "WEATHER_DEW_POINT" (dewPoint w)]
   else [])
  ++ (if is_namespace root "light"
      then [setParameterValue "WEATHER_LIGHT_LUX" (lux w);
            setParameterValue "WEATHER_SKY_BRIGHTNESS" (skyBrightness w)]
      else [])
  ++ match provided root f_center with
     | Some _ => [setParameterValue "WEATHER_SKY_TEMP_CENTER" (get_cloudTemp 4 w)]
     | None => []
     end.

(** The namespace [name] of [root] is the object [ns]; the member [key] of
    [ns] is the number [v]. *)
Definition namespace (root : Json.Value) (name : string) (ns : Json.Value)
  : Prop :=
  Json.find root name = Ret (Some ns) /\ Json.isObject ns = true.

Definition numeric_member (ns : Json.Value) (key : string) (v : Json.Value)
  : Prop :=
  Json.find ns key = Ret (Some v) /\ Json.isNumeric v = true.

(** Between the snapshots [w] and [w'] every sensor field has kept its
    value or taken the one the document provides for it. *)
Definition kept_or_provided (root : Json.Value) (w w' : WeatherData) : Prop :=
  (temperature w' = temperature w
   \/ provided root f_temperature = Some (temperature w'))
  /\ (humidity w' = humidity w
      \/ provided root f_humidity = Some (humidity w'))
  /\ (dewPoint w' = dewPoint w
      \/ provided root f_dewPoint = Some (dewPoint w'))
  /\ (lux w' = lux w \/ provided root f_lux = Some (lux w'))
  /\ (skyBrightness w' = skyBrightness w
      \/ provided root f_skyBrightness = Some (skyBrightness w'))
  /\ (cloudTemp w' = cloudTemp w
      \/ exists x, provided root f_center = Some x
                   /\ cloudTemp w' = <[4%nat := x]> (cloudTemp w)).


(** The driver after one more call. *)
Definition after_call (c : HostCall) (d : Driver) : Driver :=
  mkDriver (weatherData d) (apiUrl d) (ApiUrlT0 d) (ApiUrlTP_s d)
           (StatusT1 d) (StatusTP_s d) (ApiUrlTP_name d) (StatusTP_name d)
           (deviceName d) (connected d) (pollingPeriod d) (calls d ++ [c]).

(** ** The number a double stands for *)

(** Whether the double [x] stands for the integer [n]: a finite double
    with sign [s], mantissa [m] and exponent [e] stands for the number
    [(-1)^s * m * 2^e]. *)
Definition is_integer (x : double) (n : Z) : bool :=
  match x with
  | S754_zero _ => n =? 0
  | S754_finite s m e =>
      let z := if s then Z.neg m else Z.pos m in
      if 0 <=? e then z * 2 ^ e =? n else z =? n * 2 ^ (- e)
  | _ => false
  end.

(** The double [x] is what the snapshot takes for the number [v] of a
    document: what [asDouble] gives, which for a real is the real as
    jsoncpp holds it, and for an integer of magnitude at most 2^53 stands
    for the integer itself. *)
Definition converted (v : Json.Value) (x : double) : Prop :=
  Json.asDouble v = Ret x
  /\ match v with
     | Json.realValue r => x = r
     | Json.intValue i | Json.uintValue i =>
         Z.abs i <= 2 ^ 53 -> is_integer x i = true
     | _ => False
     end.

(** ** Sample documents

    A few texts with the trees jsoncpp reads from them, and a reader that
    knows these texts only. *)

Definition quoted (s : string) : string :=
  String "034"%char (s ++ String "034"%char "").

(** [{}] *)
Definition text_empty : string := "{}".
Definition tree_empty : Json.Value := Json.objectValue [].

(** [{"hygro":{"temp":12.5,"rh":55.0,"dew_point":4.1}}] *)
Definition text_hygro : string :=
  "{" ++ quoted "hygro" ++ ":{" ++ quoted "temp" ++ ":12.5,"
      ++ quoted "rh" ++ ":55.0," ++ quoted "dew_point" ++ ":4.1}}".
Definition tree_hygro : Json.Value :=
  Json.objectValue
    [("hygro", Json.objectValue
       [("temp", Json.realValue (S754_finite false 7036874417766400 (-49)));
        ("rh", Json.realValue (S754_finite false 7740561859543040 (-47)));
        ("dew_point",
         Json.realValue (S754_finite false 4616189618054758 (-50)))])].

(** [{"hygro":{"temp":12.5,"rh":55,"dew_point":4.1},
      "light":{"lux":120,"sqm":21.5},"cloud":{"center":-20}}] *)
Definition text_full : string :=
  "{" ++ quoted "hygro" ++ ":{" ++ quoted "temp" ++ ":12.5,"
      ++ quoted "rh" ++ ":55," ++ quoted "dew_point" ++ ":4.1},"
      ++ quoted "light" ++ ":{" ++ quoted "lux" ++ ":120,"
      ++ quoted "sqm" ++ ":21.5}," ++ quoted "cloud" ++ ":{"
      ++ quoted "center" ++ ":-20}}".
Definition tree_full : Json.Value :=
  Json.objectValue
    [("cloud", Json.objectValue [("center", Json.intValue (-20))]);
     ("hygro", Json.objectValue
       [("dew_point",
         Json.realValue (S754_finite false 4616189618054758 (-50)));
        ("rh", Json.intValue 55);
        ("temp", Json.realValue (S754_finite false 7036874417766400 (-49)))]);
     ("light", Json.objectValue
       [("lux", Json.intValue 120);
        ("sqm", Json.realValue (S754_finite false 6051711999279104 (-48)))])].

(** [{"hygro":{"temp":"warm"}}] *)
Definition text_warm : string :=
  "{" ++ quoted "hygro" ++ ":{" ++ quoted "temp" ++ ":" ++ quoted "warm"
      ++ "}}".
Definition tree_warm : Json.Value :=
  Json.objectValue
    [("hygro", Json.objectValue [("temp", Json.stringValue "warm")])].

(** [{"hygro":{"temp":12.5,"rh":"abc"}}] *)
Definition text_partial : string :=
  "{" ++ quoted "hygro" ++ ":{" ++ quoted "temp" ++ ":12.5,"
      ++ quoted "rh" ++ ":" ++ quoted "abc" ++ "}}".
Definition tree_partial : Json.Value :=
  Json.objectValue
    [("hygro", Json.objectValue
       [("rh", Json.stringValue "abc");
        ("temp", Json.realValue (S754_finite false 7036874417766400 (-49)))])].

(** [{"hygro":{"temp":12.5}}] *)
Definition text_temp : string :=
  "{" ++ quoted "hygro" ++ ":{" ++ quoted "temp" ++ ":12.5}}".
Definition tree_temp : Json.Value :=
  Json.objectValue
    [("hygro", Json.objectValue
       [("temp", Json.realValue (S754_finite false 7036874417766400 (-49)))])].

Definition sample_documents : list (string * Json.Value) :=
  [(text_empty, tree_empty); (text_hygro, tree_hygro); (text_full, tree_full);
   (text_warm, tree_warm); (text_partial, tree_partial);
   (text_temp, tree_temp)].

Fixpoint read_from (documents : list (string * Json.Value)) (text : string)
  : Json.Value + string :=
  match documents with
  | [] => inr "* Line 1, Column 1 Syntax error: value, object or array expected."
  | (t, tree) :: rest => if String.eqb t text then inl tree else read_from rest text
  end.

(** A well-formed text nested deeper than the [stackLimit] of a default
    [Json::CharReaderBuilder], which is 1000: 1200 arrays one in another.
    On it [OurReader::readValue] throws a [Json::RuntimeError]. *)
Fixpoint brackets (n : nat) (inner : string) : string :=
  match n with
  | O => inner
  | S n => String "["%char (brackets n (String.append inner "]"))
  end.

Definition text_deep : string := brackets 1200 "".

Definition read_sample (documents : list (string * Json.Value))
    (text : string) : Result (Json.Value + string) :=
  if String.eqb text text_deep
  then Throw "Exceeded stackLimit in readValue()."
  else Ret (read_from documents text).

Definition sample_reader : string -> Result (Json.Value + string) :=
  read_sample sample_documents.

(** A transfer that completes with status 200 and the given body. *)
Definition answer (body : string) : string -> Transfer :=
  fun _ => mkTransfer true CURLE_OK 200 body.

(** ** [WriteCallback]

    The function libcurl calls with each piece of the body it receives:
    [contents] is the memory at the pointer, [userp] the string behind the
    user pointer.  It appends [size * nmemb] bytes, a product of [size_t],
    and returns their number.  The result is the returned number and the
    string after the call. *)

Definition size_t_modulus : Z := 2 ^ 64.

Definition WriteCallback (contents : string) (size nmemb : Z) (userp : string)
  : Z * string :=
  let n := (size * nmemb) mod size_t_modulus in
  (n, userp ++ String.substring 0 (Z.to_nat n) contents).

(** libcurl hands the body over in pieces, each with [size] 1 and [nmemb]
    the length of the piece; [deliver] is the buffer after the pieces, and
    [acknowledged] says that every call returned the length it was given,
    which is how libcurl knows that the callback took the piece. *)
Definition deliver (pieces : list string) (buffer : string) : string :=
  foldl (fun buf piece =>
           snd (WriteCallback piece 1 (Z.of_nat (String.length piece)) buf))
        buffer pieces.

Fixpoint acknowledged (pieces : list string) (buffer : string) : bool :=
  match pieces with
  | [] => true
  | piece :: rest =>
      let r := WriteCallback piece 1 (Z.of_nat (String.length piece)) buffer in
      (fst r =? Z.of_nat (String.length piece)) && acknowledged rest (snd r)
  end.

(** ** Views of the trace of calls *)

(** The URLs of the transfers started. *)
Definition requested (cs : list HostCall) : list string :=
  omap (fun c => match c with curl_easy_perform url => Some url | _ => None end)
       cs.

(** The intervals the timer was armed with. *)
Definition timers (cs : list HostCall) : list Z :=
  omap (fun c => match c with SetTimer ms => Some ms | _ => None end) cs.

(** The messages logged at level [ERROR]. *)
Definition errors (cs : list HostCall) : list LogMsg :=
  omap (fun c => match c with LOG ERROR msg => Some msg | _ => None end) cs.

(** The names of the parameters published, and of those registered. *)
Definition published (cs : list HostCall) : list string :=
  omap (fun c => match c with
                 | setParameterValue name _ => Some name
                 | _ => None
                 end) cs.

Definition registered (cs : list HostCall) : list string :=
  omap (fun c => match c with
                 | addParameter name _ _ _ _ => Some name
                 | _ => None
                 end) cs.

(** A call that publishes one of the parameters [names]. *)
Definition publication (names : list string) (c : HostCall) : Prop :=
  match c with
  | setParameterValue name _ => name ∈ names
  | _ => False
  end.

(** The parameters each block of the parser publishes. *)
Definition hygro_parameters : list string :=
  ["WEATHER_TEMPERATURE"; "WEATHER_HUMIDITY"; "WEATHER_DEW_POINT"].
Definition light_parameters : list string :=
  ["WEATHER_LIGHT_LUX"; "WEATHER_SKY_BRIGHTNESS"].
Definition cloud_parameters : list string := ["WEATHER_SKY_TEMP_CENTER"].
Definition parser_parameters : list string :=
  hygro_parameters ++ light_parameters ++ cloud_parameters.

(** ** What the parser reads of a document *)

(** The values a block of the parser reads: none if its namespace is
    absent or is not an object, else the members [keys] of the namespace,
    with null for a member that is absent; and the exception of [find] on
    a root that is neither null nor an object. *)
Definition fields_read (root : Json.Value) (name : string) (keys : list string)
  : Result (option (list Json.Value)) :=
  match Json.find root name with
  | Ret (Some (Json.objectValue members)) =>
      Ret (Some (map (fun key =>
                        default Json.nullValue (Json.lookup_member key members))
                     keys))
  | Ret _ => Ret None
  | Throw e => Throw e
  end.

(** The document that holds the namespace [name] with the members [keys]
    of values [vs], and nothing else. *)
Definition canonical (name : string) (keys : list string)
    (vs : list Json.Value) : Json.Value :=
  Json.objectValue [(name, Json.objectValue (zip keys vs))].

(** The snapshot [w'] holds [x] in the member [f], the rest of [cloudTemp]
    being as in [w]. *)
Definition stored (f : Field) (x : double) (w w' : WeatherData) : Prop :=
  match f with
  | f_temperature => temperature w' = x
  | f_humidity => humidity w' = x
  | f_dewPoint => dewPoint w' = x
  | f_lux => lux w' = x
  | f_skyBrightness => skyBrightness w' = x
  | f_center => cloudTemp w' = <[4%nat := x]> (cloudTemp w)
  end.

(** The member [f] is the same in [w] and [w']. *)
Definition kept (f : Field) (w w' : WeatherData) : Prop :=
  match f with
  | f_temperature => temperature w' = temperature w
  | f_humidity => humidity w' = humidity w
  | f_dewPoint => dewPoint w' = dewPoint w
  | f_lux => lux w' = lux w
  | f_skyBrightness => skyBrightness w' = skyBrightness w
  | f_center => cloudTemp w' = cloudTemp w
  end.

(** ** More sample documents *)

(** [[]], [null] and the JSON string ["not json"]. *)
Definition text_array : string := "[]".
Definition text_null : string := "null".
Definition text_string : string := quoted "not json".

(** [{"hygro":{"temp":true}}] *)
Definition text_true : string :=
  "{" ++ quoted "hygro" ++ ":{" ++ quoted "temp" ++ ":true}}".
Definition tree_true : Json.Value :=
  Json.objectValue
    [("hygro", Json.objectValue [("temp", Json.booleanValue true)])].

(** [{"hygro":{"temp":12.5,"unit":"C","rh":null},"light":7,"version":3}] *)
Definition text_noise : string :=
  "{" ++ quoted "hygro" ++ ":{" ++ quoted "temp" ++ ":12.5,"
      ++ quoted "unit" ++ ":" ++ quoted "C" ++ "," ++ quoted "rh" ++ ":null},"
      ++ quoted "light" ++ ":7," ++ quoted "version" ++ ":3}".
Definition tree_noise : Json.Value :=
  Json.objectValue
    [("hygro", Json.objectValue
       [("rh", Json.nullValue);
        ("temp", Json.realValue (S754_finite false 7036874417766400 (-49)));
        ("unit", Json.stringValue "C")]);
     ("light", Json.intValue 7);
     ("version", Json.intValue 3)].

(** [{"light":{"lux":120}}] *)
Definition text_lux : string :=
  "{" ++ quoted "light" ++ ":{" ++ quoted "lux" ++ ":120}}".
Definition tree_lux : Json.Value :=
  Json.objectValue [("light", Json.objectValue [("lux", Json.intValue 120)])].

(** [{"hygro":{"temp":9007199254740993,"rh":55,"dew_point":4.1},
      "light":{"lux":120,"sqm":21.5},"cloud":{"center":-20}}], with the
    integer 2^53 + 1 for the temperature. *)
Definition text_big : string :=
  "{" ++ quoted "hygro" ++ ":{" ++ quoted "temp" ++ ":9007199254740993,"
      ++ quoted "rh" ++ ":55," ++ quoted "dew_point" ++ ":4.1},"
      ++ quoted "light" ++ ":{" ++ quoted "lux" ++ ":120,"
      ++ quoted "sqm" ++ ":21.5}," ++ quoted "cloud" ++ ":{"
      ++ quoted "center" ++ ":-20}}".
Definition tree_big : Json.Value :=
  Json.objectValue
    [("cloud", Json.objectValue [("center", Json.intValue (-20))]);
     ("hygro", Json.objectValue
       [("dew_point",
         Json.realValue (S754_finite false 4616189618054758 (-50)));
        ("rh", Json.intValue 55);
        ("temp", Json.intValue 9007199254740993)]);
     ("light", Json.objectValue
       [("lux", Json.intValue 120);
        ("sqm", Json.realValue (S754_finite false 6051711999279104 (-48)))])].

Definition more_documents : list (string * Json.Value) :=
  [(text_array, Json.arrayValue []); (text_null, Json.nullValue);
   (text_string, Json.stringValue "not json"); (text_true, tree_true);
   (text_noise, tree_noise); (text_lux, tree_lux); (text_big, tree_big)].

Definition wider_reader : string -> Result (Json.Value + string) :=
  read_sample (sample_documents ++ more_documents).

(** ** The text property of the URL *)

(** Whether a call of [ISNewText] is for the property [ApiUrlTP] of this
    device. *)
Definition addressed (dev : option string) (name : string) (d : Driver)
  : bool :=
  bool_decide (dev = Some (deviceName d)) && String.eqb name (ApiUrlTP_name d).

(** The text of [ApiUrlT[0]] after [IUUpdateText]: the last text sent, or
    the text held before when none is sent or a name is not [API_URL]. *)
Definition text_given (texts names : list string) (d : Driver) : string :=
  if forallb (String.eqb "API_URL") names
  then default (ApiUrlT0 d) (last (take (length names) texts))
  else ApiUrlT0 d.

(** ** The calls of a poll *)

(** The line of log that closes a parse or a poll: at level [DEBUG] when
    it returns [true], at level [ERROR] when it returns [false], and none
    when an exception leaves it. *)
Definition closing_line (r : Result bool) (msg : LogMsg) : list HostCall :=
  match r with
  | Ret true => [LOG DEBUG msg]
  | Ret false => [LOG ERROR msg]
  | Throw _ => []
  end.

(** The calls of a poll that ends with [r]: the transfer, the body, the
    publications [pubs] and the closing line. *)
Definition poll_calls (t : Transfer) (url : string) (pubs : list HostCall)
    (r : Result bool) (msg : LogMsg) : list HostCall :=
  (if curl t then [curl_easy_perform url] else [])
  ++ (if transferred t then [LOG DEBUG (Received_JSON_data (readBuffer t))]
      else [])
  ++ pubs ++ closing_line r msg.

(** What [readHTTPData] logs of a transfer that does not complete with
    status 200. *)
Definition transport_error (t : Transfer) : LogMsg :=
  if negb (curl t) then Failed_to_initialize_CURL
  else if negb (res t =? CURLE_OK) then curl_easy_perform_failed (res t)
  else HTTP_request_failed_with_code (http_code t).

(** Whether an exception leaves a poll that ends with [r]. *)
Definition throws (r : Result bool) : bool :=
  match r with Throw _ => true | Ret _ => false end.

(** The transfer a callback asks of libcurl, if it polls. *)
Definition polled (cb : Callback) (d : Driver) : option Transfer :=
  match cb with
  | cb_Connect net => Some (net (apiUrl d))
  | cb_TimerHit net => if connected d then Some (net (apiUrl d)) else None
  | _ => None
  end.

Definition is_initProperties (cb : Callback) : bool :=
  match cb with cb_initProperties => true | _ => false end.

Definition is_ISNewText (cb : Callback) : bool :=
  match cb with cb_ISNewText _ _ _ _ _ => true | _ => false end.

(** * Properties *)

(** ** The conversion of integers

    [static_cast<double>] on small integers is exact: 55 and -20 become
    55.0 and -20.0.  Beyond 53 bits it rounds to the nearest double, ties
    to even: 2^53 + 1 becomes 2^53. *)

Example double_of_55 :
  double_of_Z 55 = S754_finite false 7740561859543040 (-47).
Proof. reflexivity. Qed.

Example double_of_minus_20 :
  double_of_Z (-20) = S754_finite true 5629499534213120 (-48).
Proof. reflexivity. Qed.

Example double_of_Z_rounds :
  double_of_Z 9007199254740993 = double_of_Z 9007199254740992.
Proof. reflexivity. Qed.

(** ** The algebra of assignments *)

Lemma patch_no_patch w : patch no_patch w = w.
Proof. by destruct w. Qed.

Lemma touch_nothing d : touch no_patch [] d = d.
Proof.
  destruct d as [w ? ? ? ? ? ? ? ? ? ? cs]; unfold touch; simpl.
  by rewrite patch_no_patch, app_nil_r.
Qed.

Lemma patch_over q p w : patch q (patch p w) = patch (over q p) w.
Proof.
  destruct w as [? ? ? ? ? slots ? ?]; unfold patch, over; simpl.
  f_equal; try by destruct (assigned q _).
  - destruct (assigned q f_center), (assigned p f_center); try done.
    apply list_insert_insert_eq.
  - by rewrite orb_assoc.
Qed.

Lemma touch_touch q p evs evs' d :
  touch q evs' (touch p evs d) = touch (over q p) (evs ++ evs')%list d.
Proof. unfold touch; simpl. by rewrite patch_over, app_assoc. Qed.

Lemma patch_idempotent p w : patch p (patch p w) = patch p w.
Proof.
  destruct w as [? ? ? ? ? slots ? ?]; unfold patch; simpl.
  f_equal; try by destruct (assigned p _).
  - destruct (assigned p f_center); [|done].
    apply list_insert_insert_eq.
  - by destruct (validated p).
Qed.

(** Two patches that assign the same values are the same assignments. *)
Lemma patch_ext p q w :
  (forall f, assigned p f = assigned q f) -> validated p = validated q ->
  patch p w = patch q w.
Proof. intros Hf Hv. unfold patch. by rewrite !Hf, Hv. Qed.

(** ** Rules for the effect of a computation *)

Lemma effect_ret {A} (a : A) : effect (ret a) (Ret a) no_patch.
Proof. intros d; exists []. split; [done|]. by rewrite touch_nothing. Qed.

Lemma effect_call c :
  (forall d, quiet (c d)) -> effect (call c) (Ret tt) no_patch.
Proof.
  intros Hc d; exists [c d]. split; [by repeat constructor|].
  unfold call, touch. by rewrite patch_no_patch.
Qed.

Lemma effect_bind_ret {A B} (m : M A) (k : A -> M B) a p o q :
  effect m (Ret a) p -> effect (k a) o q -> effect (bind m k) o (over q p).
Proof.
  intros Hm Hk d. destruct (Hm d) as (evs & Hq & Hd).
  destruct (Hk (touch p evs d)) as (evs' & Hq' & Hd').
  exists (evs ++ evs')%list. split; [by apply Forall_app|].
  unfold bind. by rewrite Hd, Hd', touch_touch.
Qed.

Lemma effect_bind_throw {A B} (m : M A) (k : A -> M B) e p :
  effect m (Throw e) p -> effect (bind m k) (Throw e) p.
Proof.
  intros Hm d. destruct (Hm d) as (evs & Hq & Hd).
  exists evs. split; [done|]. unfold bind. by rewrite Hd.
Qed.

Lemma effect_try_ret {A} (body : M A) (handler : string -> M A) a p :
  effect body (Ret a) p -> effect (try_catch body handler) (Ret a) p.
Proof.
  intros Hm d. destruct (Hm d) as (evs & Hq & Hd).
  exists evs. split; [done|]. unfold try_catch. by rewrite Hd.
Qed.

Lemma effect_try_throw {A} (body : M A) (handler : string -> M A) e p o q :
  effect body (Throw e) p -> effect (handler e) o q ->
  effect (try_catch body handler) o (over q p).
Proof.
  intros Hm Hk d. destruct (Hm d) as (evs & Hq & Hd).
  destruct (Hk (touch p evs d)) as (evs' & Hq' & Hd').
  exists (evs ++ evs')%list. split; [by apply Forall_app|].
  unfold try_catch. by rewrite Hd, Hd', touch_touch.
Qed.

Lemma effect_set_dataValid_true : effect (set_dataValid true) (Ret tt) validate.
Proof.
  intros [w ? ? ? ? ? ? ? ? ? ? cs]; exists []. split; [done|].
  unfold set_dataValid, modify_weatherData, touch.
  destruct w; simpl. by rewrite app_nil_r.
Qed.

Lemma effect_fst {A} (m : M A) o p d : effect m o p -> fst (m d) = o.
Proof. intros Hm. by destruct (Hm d) as (evs & _ & ->). Qed.

(** ** Rules for [wp], one for each construct of the parser *)

Lemma wp_ret {A} (a : A) Q : Q (Ret a) no_patch -> wp (ret a) Q.
Proof. exists (Ret a), no_patch. split; [apply effect_ret|done]. Qed.

Lemma wp_lift {A} (r : Result A) Q : Q r no_patch -> wp (lift r) Q.
Proof.
  exists r, no_patch. split; [|done].
  intros d; exists []. split; [done|]. unfold lift. by rewrite touch_nothing.
Qed.

Lemma wp_call c Q :
  (forall d, quiet (c d)) -> Q (Ret tt) no_patch -> wp (call c) Q.
Proof. exists (Ret tt), no_patch. split; [by apply effect_call|done]. Qed.

Lemma wp_bind {A B} (m : M A) (k : A -> M B) Q :
  wp m (fun o p => match o with
                   | Ret a => wp (k a) (fun o' q => Q o' (over q p))
                   | Throw e => Q (Throw e) p
                   end) ->
  wp (bind m k) Q.
Proof.
  intros (o & p & Hm & H). destruct o as [a|e].
  - destruct H as (o' & q & Hk & H). exists o', (over q p). split; [|done].
    by eapply effect_bind_ret.
  - exists (Throw e), p. split; [|done]. by apply effect_bind_throw.
Qed.

Lemma wp_when (c : bool) (body : M unit) Q :
  (if c then wp body Q else Q (Ret tt) no_patch) -> wp (when c body) Q.
Proof. destruct c; [done|]. apply wp_ret. Qed.

Lemma wp_assign f x (m : M unit) Q :
  (forall d, m d = (Ret tt, touch (assign f x) [] d)) ->
  Q (Ret tt) (assign f x) -> wp m Q.
Proof.
  intros Hm HQ. exists (Ret tt), (assign f x). split; [|done].
  intros d; exists []. split; [done|]. apply Hm.
Qed.

Ltac by_assignment setter :=
  apply wp_assign;
  intros [w ? ? ? ? ? ? ? ? ? ? cs]; unfold setter, modify_weatherData, touch;
  destruct w; simpl; by rewrite app_nil_r.

Lemma wp_set_temperature x Q :
  Q (Ret tt) (assign f_temperature x) -> wp (set_temperature x) Q.
Proof. by_assignment set_temperature. Qed.

Lemma wp_set_humidity x Q :
  Q (Ret tt) (assign f_humidity x) -> wp (set_humidity x) Q.
Proof. by_assignment set_humidity. Qed.

Lemma wp_set_dewPoint x Q :
  Q (Ret tt) (assign f_dewPoint x) -> wp (set_dewPoint x) Q.
Proof. by_assignment set_dewPoint. Qed.

Lemma wp_set_lux x Q :
  Q (Ret tt) (assign f_lux x) -> wp (set_lux x) Q.
Proof. by_assignment set_lux. Qed.

Lemma wp_set_skyBrightness x Q :
  Q (Ret tt) (assign f_skyBrightness x) -> wp (set_skyBrightness x) Q.
Proof. by_assignment set_skyBrightness. Qed.

Lemma wp_set_cloudTemp_4 x Q :
  Q (Ret tt) (assign f_center x) -> wp (set_cloudTemp 4 x) Q.
Proof. by_assignment set_cloudTemp. Qed.

(** ** The three blocks of the parser *)

(** Symbolic execution of a block: the rules of [wp] along the code, a
    case distinction at each member the code looks up. *)
Ltac wp_run :=
  repeat (simpl;
    match goal with
    | |- wp (bind _ _) _ => apply wp_bind
    | |- wp (lift _) _ => apply wp_lift
    | |- wp (ret _) _ => apply wp_ret
    | |- wp (call _) _ => apply wp_call; [done|]
    | |- wp (when _ _) _ => apply wp_when
    | |- wp (set_temperature _) _ => apply wp_set_temperature
    | |- wp (set_humidity _) _ => apply wp_set_humidity
    | |- wp (set_dewPoint _) _ => apply wp_set_dewPoint
    | |- wp (set_lux _) _ => apply wp_set_lux
    | |- wp (set_skyBrightness _) _ => apply wp_set_skyBrightness
    | |- wp (set_cloudTemp 4 _) _ => apply wp_set_cloudTemp_4
    | |- context [match Json.lookup_member ?k ?ms with _ => _ end] =>
        destruct (Json.lookup_member k ms) as [?|] eqn:?
    | |- context [Json.isNull ?v] =>
        is_var v; destruct (Json.isNull v) eqn:?
    | |- context [Json.asDouble ?v] =>
        is_var v; destruct (Json.asDouble v) eqn:?
    end).

Ltac wp_leaf :=
  split; [|split];
  [ split; [by intros []|done]
  | intros [] ?; try discriminate;
    unfold provided; simpl;
    repeat match goal with H : _ = _ |- _ => rewrite H; clear H end;
    simpl; split; intros; by simplify_eq
  | by intros ].

Lemma parse_hygro_data_wp root :
  wp (parse_hygro_data root) (block_post hygro_fields root).
Proof.
  unfold parse_hygro_data, Json.isMember, Json.subscript.
  destruct root; simpl;
    try (destruct (Json.lookup_member "hygro" members) as [[]|] eqn:?);
    wp_run; wp_leaf.
Qed.

Lemma parse_light_data_wp root :
  wp (parse_light_data root) (block_post light_fields root).
Proof.
  unfold parse_light_data, Json.isMember, Json.subscript.
  destruct root; simpl;
    try (destruct (Json.lookup_member "light" members) as [[]|] eqn:?);
    wp_run; wp_leaf.
Qed.

Lemma parse_cloud_data_wp root :
  wp (parse_cloud_data root) (block_post cloud_fields root).
Proof.
  unfold parse_cloud_data, Json.isMember, Json.subscript.
  destruct root; simpl;
    try (destruct (Json.lookup_member "cloud" members) as [[]|] eqn:?);
    wp_run; wp_leaf.
Qed.

(** A block throws exactly when its namespace is not fit for extraction. *)
Ltac run_block :=
  unfold namespace_ok, bind, lift, when, ret,
    Json.isMember, Json.subscript, Json.find;
  repeat (simpl;
          match goal with
          | |- context [Json.lookup_member ?k ?ms] =>
              destruct (Json.lookup_member k ms) as [[]|]
          end);
  simpl; try done.

Lemma parse_hygro_data_outcome root d :
  match fst (parse_hygro_data root d) with
  | Ret _ => namespace_ok root "hygro" ["temp"; "rh"; "dew_point"] = true
  | Throw _ => namespace_ok root "hygro" ["temp"; "rh"; "dew_point"] = false
  end.
Proof. unfold parse_hygro_data. destruct root; run_block. Qed.

Lemma parse_light_data_outcome root d :
  match fst (parse_light_data root d) with
  | Ret _ => namespace_ok root "light" ["lux"; "sqm"] = true
  | Throw _ => namespace_ok root "light" ["lux"; "sqm"] = false
  end.
Proof. unfold parse_light_data. destruct root; run_block. Qed.

Lemma parse_cloud_data_outcome root d :
  match fst (parse_cloud_data root d) with
  | Ret _ => namespace_ok root "cloud" ["center"] = true
  | Throw _ => namespace_ok root "cloud" ["center"] = false
  end.
Proof. unfold parse_cloud_data. destruct root; run_block. Qed.

(** The members a document provides belong to one block each. *)
Lemma block_post_sound fs root o p : block_post fs root o p -> sound root p.
Proof.
  intros [[Hout _] [Hin _]] f x Hf. destruct (fs f) eqn:E.
  - by apply (Hin f E).
  - by rewrite (Hout f E) in Hf.
Qed.

Lemma block_post_complete fs root p f :
  block_post fs root (Ret tt) p ->
  assigned p f = if fs f then provided root f else None.
Proof.
  intros [[Hout _] [Hin _]]. destruct (fs f) eqn:E.
  - by apply (Hin f E).
  - by apply Hout.
Qed.

Lemma sound_no_patch root : sound root no_patch.
Proof. by intros f x. Qed.

Lemma sound_validate root : sound root validate.
Proof. by intros f x. Qed.

Lemma sound_over root q p : sound root q -> sound root p -> sound root (over q p).
Proof.
  intros Hq Hp f x; simpl. destruct (assigned q f) eqn:E.
  - intros [= ->]. by apply Hq.
  - apply Hp.
Qed.

(** ** What a parse returns and assigns *)

(** The handler of [parseJSONData] after a block has thrown. *)
Lemma caught_effect root (body : M bool) e p :
  effect body (Throw e) p -> validated p = false -> sound root p ->
  assigned p f_center = None ->
  exists q, effect (try_catch body (fun what =>
                      LOG_ERROR (Exception_while_parsing_JSON what);; ret false))
                   (Ret false) q
    /\ validated q = false
    /\ (sound root q
        /\ (false = true -> forall f, assigned q f = provided root f))
    /\ (false = false -> assigned q f_center = None).
Proof.
  intros Hb Hv Hs Hc. eexists; split; [eapply effect_try_throw; [exact Hb|]|].
  { eapply effect_bind_ret; [by apply effect_call|apply effect_ret]. }
  split; [simpl; by rewrite Hv|]. split; [split; [|done]|done].
  repeat apply sound_over; auto using sound_no_patch.
Qed.

Lemma effect_lift {A} (r : Result A) : effect (lift r) r no_patch.
Proof.
  intros d; exists []. split; [done|]. unfold lift. by rewrite touch_nothing.
Qed.

Lemma bind_lift_ret {A B} (a : A) (k : A -> M B) : bind (lift (Ret a)) k = k a.
Proof. done. Qed.

Lemma block_post_center fs root e p :
  block_post fs root (Throw e) p -> assigned p f_center = None.
Proof. intros (_ & _ & Hc). by apply (Hc e). Qed.

Lemma block_post_within fs root o p f :
  block_post fs root o p -> fs f = false -> assigned p f = None.
Proof. intros [[Hout _] _]. apply Hout. Qed.

Lemma parseJSONData_effect reader jsonData :
  exists p,
    effect (parseJSONData reader jsonData) (parse_result reader jsonData) p
    /\ validated p = parses reader jsonData
    /\ drawn_from reader jsonData p
    /\ (parses reader jsonData = false -> assigned p f_center = None).
Proof.
  unfold parseJSONData, parses, parse_result, drawn_from.
  destruct (reader jsonData) as [[root|errs]|what].
  3:{ exists no_patch. split; [|done].
      apply effect_bind_throw, effect_lift. }
  2:{ rewrite bind_lift_ret. eexists; split;
        [eapply effect_bind_ret; [by apply effect_call|apply effect_ret]|].
      done. }
  rewrite bind_lift_ret.
  destruct (parse_hygro_data_wp root) as (o1 & p1 & E1 & P1).
  destruct (parse_light_data_wp root) as (o2 & p2 & E2 & P2).
  destruct (parse_cloud_data_wp root) as (o3 & p3 & E3 & P3).
  pose proof (parse_hygro_data_outcome root amsky01_api) as O1.
  pose proof (parse_light_data_outcome root amsky01_api) as O2.
  pose proof (parse_cloud_data_outcome root amsky01_api) as O3.
  rewrite (effect_fst _ _ _ _ E1) in O1.
  rewrite (effect_fst _ _ _ _ E2) in O2.
  rewrite (effect_fst _ _ _ _ E3) in O3.
  pose proof (block_post_sound _ _ _ _ P1) as S1.
  pose proof (block_post_sound _ _ _ _ P2) as S2.
  pose proof (block_post_sound _ _ _ _ P3) as S3.
  pose proof (proj2 (proj1 P1)) as V1.
  pose proof (proj2 (proj1 P2)) as V2.
  pose proof (proj2 (proj1 P3)) as V3.
  pose proof (block_post_within _ _ _ _ f_center P1 eq_refl) as C1.
  pose proof (block_post_within _ _ _ _ f_center P2 eq_refl) as C2.
  unfold extractable.
  destruct o1 as [[]|e1]; rewrite O1; simpl.
  2:{ eapply caught_effect; [by apply effect_bind_throw|done..]. }
  destruct o2 as [[]|e2]; rewrite O2; simpl.
  2:{ eapply caught_effect.
      - eapply effect_bind_ret; [exact E1|]. by apply effect_bind_throw.
      - simpl. by rewrite V1, V2.
      - by apply sound_over.
      - simpl. by rewrite C2, C1. }
  destruct o3 as [[]|e3]; rewrite O3; simpl.
  2:{ eapply caught_effect.
      - eapply effect_bind_ret; [exact E1|].
        eapply effect_bind_ret; [exact E2|]. by apply effect_bind_throw.
      - simpl. by rewrite V1, V2, V3.
      - by repeat apply sound_over.
      - simpl. by rewrite (block_post_center _ _ _ _ P3), C2, C1. }
  eexists; split; [apply effect_try_ret|].
  { eapply effect_bind_ret; [exact E1|].
    eapply effect_bind_ret; [exact E2|].
    eapply effect_bind_ret; [exact E3|].
    eapply effect_bind_ret; [apply effect_set_dataValid_true|].
    eapply effect_bind_ret; [by apply effect_call|apply effect_ret]. }
  split; [done|]. split; [|done]. split.
  { repeat apply sound_over; auto using sound_no_patch, sound_validate. }
  intros _ f; simpl.
  rewrite (block_post_complete _ _ _ f P1), (block_post_complete _ _ _ f P2),
    (block_post_complete _ _ _ f P3).
  by destruct f; simpl; destruct (provided root _).
Qed.

Lemma returned_true_parse_result reader jsonData :
  returned_true (parse_result reader jsonData) = parses reader jsonData.
Proof.
  unfold parse_result, parses.
  destruct (reader jsonData) as [[root|errs]|what]; try done.
  by destruct (extractable root).
Qed.

Lemma returned_true_poll_result reader t :
  returned_true (poll_result reader t) = polls reader t.
Proof.
  unfold poll_result, polls. destruct (transferred t); [|done].
  apply returned_true_parse_result.
Qed.


Lemma parseJSONData_run reader jsonData d :
  exists p evs,
    Forall quiet evs
    /\ parseJSONData reader jsonData d
       = (parse_result reader jsonData, touch p evs d)
    /\ validated p = parses reader jsonData
    /\ drawn_from reader jsonData p.
Proof.
  destruct (parseJSONData_effect reader jsonData) as (p & E & V & D & _).
  destruct (E d) as (evs & Hq & Hd). by exists p, evs.
Qed.

(** A parse that succeeds assigns what the document provides, and sets
    [dataValid]. *)
Lemma parseJSONData_success reader jsonData root d :
  reader jsonData = Ret (inl root) -> extractable root = true ->
  exists evs,
    Forall quiet evs
    /\ parseJSONData reader jsonData d = (Ret true, touch (extracted root) evs d).
Proof.
  intros Hr Hx.
  destruct (parseJSONData_run reader jsonData d) as (p & evs & Hq & Hd & V & D).
  unfold parses, parse_result, drawn_from in *. rewrite Hr in *.
  rewrite Hx in *.
  destruct D as [_ D]. exists evs. split; [done|]. rewrite Hd.
  unfold touch. by rewrite (patch_ext p (extracted root)); [|apply D|].
Qed.

(** ** What a poll returns and assigns *)

Lemma bind_call {A} c (k : unit -> M A) d :
  bind (call c) k d = k tt (touch no_patch [c d] d).
Proof. unfold bind, call, touch. by rewrite patch_no_patch. Qed.

Lemma bind_gets {A B} (f : Driver -> A) (k : A -> M B) d :
  bind (gets f) k d = k (f d) d.
Proof. done. Qed.

Lemma readHTTPData_run reader net d :
  let t := net (apiUrl d) in
  exists p evs,
    Forall quiet evs
    /\ readHTTPData reader net d
       = (poll_result reader t,
          touch p ((if curl t then [curl_easy_perform (apiUrl d)] else [])
                   ++ evs) d)
    /\ validated p = polls reader t
    /\ (if transferred t then drawn_from reader (readBuffer t) p
        else forall f, assigned p f = None)
    /\ (polls reader t = false -> assigned p f_center = None).
Proof.
  unfold readHTTPData, polls, poll_result, transferred, LOG_ERROR, LOG_DEBUG,
    emit.
  rewrite bind_gets. simpl.
  destruct (curl (net (apiUrl d))); simpl.
  2:{ rewrite bind_call.
      eexists no_patch, [_]; split; [|split; [reflexivity|done]].
      by repeat constructor. }
  rewrite bind_call.
  set (d1 := touch no_patch _ d).
  destruct (res (net (apiUrl d)) =? CURLE_OK); simpl.
  2:{ rewrite bind_call. unfold ret, d1. rewrite touch_touch.
      eexists _, [_]; split; [|split; [reflexivity|done]].
      by repeat constructor. }
  destruct (http_code (net (apiUrl d)) =? 200); simpl.
  2:{ rewrite bind_call. unfold ret, d1. rewrite touch_touch.
      eexists _, [_]; split; [|split; [reflexivity|done]].
      by repeat constructor. }
  rewrite bind_call.
  destruct (parseJSONData_effect reader (readBuffer (net (apiUrl d))))
    as (p & E & V & D & C).
  match goal with |- context [parseJSONData _ _ ?d2] =>
    destruct (E d2) as (evs & Hq & ->) end.
  unfold d1. rewrite !touch_touch.
  eexists _, (_ :: evs); split; [|split; [reflexivity|]]; [by constructor|].
  split; [simpl; rewrite V; by destruct (parses _ _)|].
  split; [|intros Hp; simpl; by rewrite (C Hp)].
  unfold drawn_from in *. destruct (reader _) as [[root|errs]|what].
  - destruct D as [S C']. split.
    + repeat apply sound_over; auto using sound_no_patch.
    + intros Hx f. simpl. rewrite (C' Hx f). by destruct (provided root f).
  - intros f. simpl. by rewrite (D f).
  - intros f. simpl. by rewrite (D f).
Qed.

Lemma Connect_run reader net d :
  let t := net (apiUrl d) in
  exists p evs,
    Connect reader net d = (poll_result reader t, touch p evs d)
    /\ validated p = polls reader t
    /\ (if transferred t then drawn_from reader (readBuffer t) p
        else forall f, assigned p f = None)
    /\ (polls reader t = false -> assigned p f_center = None).
Proof.
  unfold Connect, LOG_INFO, emit. rewrite bind_call.
  set (d1 := touch no_patch _ d).
  destruct (readHTTPData_run reader net d1) as (p & evs & _ & E & V & D & C).
  unfold bind at 1. rewrite E. change (apiUrl d1) with (apiUrl d) in *.
  exists (over no_patch (over p no_patch)).
  pose proof (returned_true_poll_result reader (net (apiUrl d))) as R.
  destruct (poll_result reader (net (apiUrl d))) as [[]|what];
    simpl in R; rewrite <- R in *.
  1,2: rewrite bind_call; unfold ret.
  all: unfold d1; rewrite !touch_touch.
  all: eexists; split; [reflexivity|]; split; [by simpl; rewrite V|].
  all: (split; [|intros Hp; simpl; by rewrite (C Hp)]).
  all: destruct (transferred _); [|by intros f; simpl; rewrite (D f)].
  all: unfold drawn_from in *; destruct (reader _) as [[root|errs]|what'];
       [|by intros f; simpl; rewrite (D f)..].
  all: destruct D as [S C']; split;
       [by repeat apply sound_over; auto using sound_no_patch|].
  all: intros Hx f; simpl; rewrite (C' Hx f); by destruct (provided root f).
Qed.

(** ** The snapshot under the callbacks *)

Lemma IUUpdateText_ApiUrlTP_weatherData texts names d :
  weatherData (snd (IUUpdateText_ApiUrlTP texts names d)) = weatherData d.
Proof.
  unfold IUUpdateText_ApiUrlTP. destruct (forallb _ names); [|done].
  generalize (take (length names) texts); intros l.
  revert d; induction l as [|text l IH]; intros d; [done|].
  simpl. unfold bind. simpl. by rewrite IH.
Qed.

Lemma IUUpdateText_ApiUrlTP_returns texts names d :
  fst (IUUpdateText_ApiUrlTP texts names d) = Ret tt.
Proof.
  unfold IUUpdateText_ApiUrlTP. destruct (forallb _ names); [|done].
  generalize (take (length names) texts); intros l.
  revert d; induction l as [|text l IH]; intros d; [done|].
  simpl. unfold bind. simpl. by rewrite IH.
Qed.

Lemma ISNewText_weatherData inherited dev name texts names d :
  weatherData (snd (ISNewText inherited dev name texts names d)) = weatherData d.
Proof.
  unfold ISNewText. rewrite !bind_gets.
  destruct (_ && _); [|done].
  unfold bind at 1.
  pose proof (IUUpdateText_ApiUrlTP_weatherData texts names d) as Hw.
  pose proof (IUUpdateText_ApiUrlTP_returns texts names d) as Hr.
  destruct (IUUpdateText_ApiUrlTP texts names d) as [o d1]; simpl in *.
  by subst o.
Qed.

(** Every callback leaves the snapshot as it is, but for the assignments
    of its poll; [dataValid] is set exactly when the poll succeeds. *)
Lemma run_weatherData reader cb d :
  exists p,
    weatherData (run reader cb d) = patch p (weatherData d)
    /\ validated p = poll_succeeds reader cb d.
Proof.
  destruct cb as [| |net| |net|inherited dev name texts names| |c period];
    unfold run, poll_succeeds.
  - exists no_patch. rewrite patch_no_patch. split; [|done]. destruct d; reflexivity.
  - exists no_patch. rewrite patch_no_patch. split; [|done].
    unfold updateProperties. destruct d as [? ? ? ? ? ? ? ? ? [] ? ?]; reflexivity.
  - destruct (Connect_run reader net d) as (p & evs & E & V & _).
    exists p. rewrite E; simpl. by rewrite V, returned_true_poll_result.
  - exists no_patch. rewrite patch_no_patch. split; [|done]. destruct d; reflexivity.
  - unfold TimerHit. rewrite bind_gets. destruct (connected d); simpl.
    + destruct (readHTTPData_run reader net d) as (p & evs & _ & E & V & _).
      exists p. unfold bind. rewrite E; simpl.
      rewrite V, returned_true_poll_result.
      by destruct (poll_result _ _).
    + exists no_patch. by rewrite patch_no_patch.
  - exists no_patch. by rewrite patch_no_patch, ISNewText_weatherData.
  - exists no_patch. rewrite patch_no_patch. split; [|done].
    unfold updateWeather, bind; simpl. by destruct (dataValid _).
  - exists no_patch. by rewrite patch_no_patch.
Qed.

Lemma patch_dataValid p w : dataValid (patch p w) = validated p || dataValid w.
Proof. done. Qed.

Lemma runs_app reader cbs cbs' d :
  runs reader (cbs ++ cbs') d = runs reader cbs' (runs reader cbs d).
Proof. unfold runs. apply foldl_app. Qed.

Lemma some_poll_succeeds_app reader cbs cbs' d :
  some_poll_succeeds reader (cbs ++ cbs') d
  = some_poll_succeeds reader cbs d
    || some_poll_succeeds reader cbs' (runs reader cbs d).
Proof.
  revert d; induction cbs as [|cb cbs IH]; intros d; [done|].
  simpl. by rewrite IH, orb_assoc.
Qed.

Lemma run_dataValid reader cb d :
  dataValid (weatherData (run reader cb d))
  = poll_succeeds reader cb d || dataValid (weatherData d).
Proof.
  destruct (run_weatherData reader cb d) as (p & -> & <-).
  apply patch_dataValid.
Qed.

Lemma runs_dataValid reader cbs d :
  dataValid (weatherData (runs reader cbs d))
  = some_poll_succeeds reader cbs d || dataValid (weatherData d).
Proof.
  revert d; induction cbs as [|cb cbs IH]; intros d; [done|].
  change (runs reader (cb :: cbs) d) with (runs reader cbs (run reader cb d)).
  simpl. by rewrite IH, run_dataValid, orb_assoc, (orb_comm (some_poll_succeeds _ _ _)).
Qed.

Lemma updateWeather_returns d :
  fst (updateWeather d)
  = Ret (if dataValid (weatherData d) then IPS_OK else IPS_ALERT).
Proof. unfold updateWeather, bind; simpl. by destruct (dataValid _). Qed.

(** ** Lemmas on the snapshot, the documents and the calls *)

Lemma provided_inv root f x :
  provided root f = Some x ->
  exists ns v,
    Json.find root (fst (source f)) = Ret (Some ns)
    /\ Json.isObject ns = true
    /\ Json.find ns (snd (source f)) = Ret (Some v)
    /\ Json.isNull v = false
    /\ Json.asDouble v = Ret x.
Proof.
  unfold provided. destruct (Json.find root _) as [[[]|]|]; try done.
  simpl. destruct (Json.lookup_member _ members) as [v|] eqn:Hv; [|done].
  destruct (Json.isNull v) eqn:Hn; [done|].
  destruct (Json.asDouble v) as [y|] eqn:Hy; [|done].
  intros [= ->]. exists (Json.objectValue members), v.
  repeat split; try done. simpl. by rewrite Hv.
Qed.

Lemma patch_cloudTemp p w :
  avgCloudTemp (patch p w) = avgCloudTemp w
  /\ take 4 (cloudTemp (patch p w)) = take 4 (cloudTemp w)
  /\ length (cloudTemp (patch p w)) = length (cloudTemp w)
  /\ cloudTemp (patch p w)
     = match assigned p f_center with
       | Some x => <[4%nat := x]> (cloudTemp w)
       | None => cloudTemp w
       end.
Proof.
  simpl. destruct (assigned p f_center); [|done].
  by rewrite take_insert_ge, length_insert.
Qed.



Lemma provided_absent_namespace root f :
  Json.find root (fst (source f)) = Ret None -> provided root f = None.
Proof. unfold provided. by intros ->. Qed.

Lemma provided_absent_key root f ns :
  Json.find root (fst (source f)) = Ret (Some ns) ->
  Json.find ns (snd (source f)) = Ret None ->
  provided root f = None.
Proof.
  unfold provided. intros -> Hk. destruct ns; try done.
  simpl in Hk. by injection Hk as ->.
Qed.

Lemma unprovided_unassigned root p f :
  sound root p -> provided root f = None -> assigned p f = None.
Proof.
  intros Hs Hp. destruct (assigned p f) as [x|] eqn:E; [|done].
  by rewrite (Hs f x E) in Hp.
Qed.

(** The snapshot after a parse of a text the reader accepts. *)
Lemma parseJSONData_accepted reader jsonData root d :
  reader jsonData = Ret (inl root) ->
  exists p,
    weatherData (snd (parseJSONData reader jsonData d))
    = patch p (weatherData d)
    /\ sound root p.
Proof.
  intros Hr.
  destruct (parseJSONData_run reader jsonData d) as (p & evs & _ & -> & _ & D).
  unfold drawn_from in D. rewrite Hr in D. exists p. by destruct D.
Qed.

Lemma numeric_convertible v :
  Json.isNumeric v = true ->
  convertible v = true /\ Json.isNull v = false
  /\ exists x, Json.asDouble v = Ret x.
Proof. destruct v; try done; simpl; eauto. Qed.

Lemma provided_numeric root f ns v :
  namespace root (fst (source f)) ns ->
  numeric_member ns (snd (source f)) v ->
  exists x, Json.asDouble v = Ret x /\ provided root f = Some x.
Proof.
  intros [Hns Ho] [Hv Hn].
  destruct (numeric_convertible v Hn) as (_ & Hnull & x & Hx).
  exists x. split; [done|]. unfold provided. rewrite Hns.
  destruct ns; try done. simpl in Hv. injection Hv as ->.
  by rewrite Hnull, Hx.
Qed.

Lemma namespace_ok_numeric root name ns keys :
  namespace root name ns ->
  Forall (fun key => exists v, numeric_member ns key v) keys ->
  namespace_ok root name keys = true.
Proof.
  intros [Hns Ho] Hkeys. unfold namespace_ok. rewrite Hns.
  destruct ns; try done. apply forallb_forall. intros key Hkey.
  rewrite Forall_forall in Hkeys.
  destruct (Hkeys key) as (v & Hv & Hn); [by apply list_elem_of_In|].
  simpl in Hv. injection Hv as ->.
  by destruct (numeric_convertible v Hn) as (-> & _).
Qed.

Lemma parseJSONData_returns reader jsonData d :
  fst (parseJSONData reader jsonData d) = parse_result reader jsonData
  /\ dataValid (weatherData (snd (parseJSONData reader jsonData d)))
     = parses reader jsonData || dataValid (weatherData d).
Proof.
  destruct (parseJSONData_run reader jsonData d) as (p & evs & _ & -> & V & _).
  simpl. by rewrite V.
Qed.


Lemma sound_kept_or_provided root p w :
  sound root p -> kept_or_provided root w (patch p w).
Proof.
  intros Hs. unfold kept_or_provided; simpl.
  repeat split.
  1-5: match goal with |- context [assigned ?q ?f] =>
         destruct (assigned q f) as [x|] eqn:E;
         [right; by apply Hs|by left] end.
  destruct (assigned p f_center) as [x|] eqn:E; [right|by left].
  exists x. split; [by apply Hs|done].
Qed.

Ltac run_calls :=
  unfold is_namespace, bind, lift, when, ret, call,
    Json.isMember, Json.subscript, Json.find;
  repeat (simpl;
          match goal with
          | |- context [Json.lookup_member ?k ?ms] =>
              destruct (Json.lookup_member k ms) as [[]|]
          end);
  simpl; rewrite <- ?app_assoc, ?app_nil_r; try done.

Lemma parse_hygro_data_calls root d :
  let r := parse_hygro_data root d in
  let w' := weatherData (snd r) in
  match fst r with
  | Ret _ =>
      calls (snd r)
      = (calls d
        ++ (if is_namespace root "hygro"
            then [setParameterValue "WEATHER_TEMPERATURE" (temperature w');
                  setParameterValue "WEATHER_HUMIDITY" (humidity w');
                  setParameterValue "WEATHER_DEW_POINT" (dewPoint w')]
            else []))%list
  | Throw _ => True
  end.
Proof.
  unfold parse_hygro_data. destruct d as [[] ? ? ? ? ? ? ? ? ? ? cs].
  destruct root; run_calls.
Qed.

Lemma parse_light_data_calls root d :
  let r := parse_light_data root d in
  let w' := weatherData (snd r) in
  match fst r with
  | Ret _ =>
      calls (snd r)
      = (calls d
        ++ (if is_namespace root "light"
            then [setParameterValue "WEATHER_LIGHT_LUX" (lux w');
                  setParameterValue "WEATHER_SKY_BRIGHTNESS" (skyBrightness w')]
            else []))%list
  | Throw _ => True
  end.
Proof.
  unfold parse_light_data. destruct d as [[] ? ? ? ? ? ? ? ? ? ? cs].
  destruct root; run_calls.
Qed.

Lemma parse_cloud_data_calls root d :
  let r := parse_cloud_data root d in
  let w' := weatherData (snd r) in
  match fst r with
  | Ret _ =>
      calls (snd r)
      = (calls d
        ++ match provided root f_center with
           | Some _ => [setParameterValue "WEATHER_SKY_TEMP_CENTER"
                                          (get_cloudTemp 4 w')]
           | None => []
           end)%list
  | Throw _ => True
  end.
Proof.
  unfold parse_cloud_data, provided. destruct d as [[] ? ? ? ? ? ? ? ? ? ? cs].
  destruct root; run_calls.
Qed.

(** What a block leaves alone, on the state it runs from. *)
Lemma block_frame fs root (block : M unit) d :
  wp block (block_post fs root) ->
  exists p evs,
    weatherData (snd (block d)) = patch p (weatherData d)
    /\ calls (snd (block d)) = (calls d ++ evs)%list
    /\ within fs p.
Proof.
  intros (o & p & E & [W _]). destruct (E d) as (evs & _ & ->).
  by exists p, evs.
Qed.

(** The driver after the handler of [parseJSONData], and after the end of
    its [try] block. *)
Lemma parseJSONData_stages reader jsonData root d :
  reader jsonData = Ret (inl root) ->
  let caught what d' :=
    after_call (LOG ERROR (Exception_while_parsing_JSON what)) d' in
  let r1 := parse_hygro_data root d in
  let r2 := parse_light_data root (snd r1) in
  let r3 := parse_cloud_data root (snd r2) in
  parseJSONData reader jsonData d
  = match fst r1, fst r2, fst r3 with
    | Throw e, _, _ => (Ret false, caught e (snd r1))
    | Ret _, Throw e, _ => (Ret false, caught e (snd r2))
    | Ret _, Ret _, Throw e => (Ret false, caught e (snd r3))
    | Ret _, Ret _, Ret _ =>
        (Ret true,
         snd (call (fun d' =>
                      LOG DEBUG
                          (Parsed_data (temperature (weatherData d'))
                                       (humidity (weatherData d'))
                                       (lux (weatherData d'))
                                       (skyBrightness (weatherData d'))))
                   (snd (set_dataValid true (snd r3)))))
    end.
Proof.
  intros Hr. simpl. unfold parseJSONData. rewrite Hr, bind_lift_ret.
  unfold try_catch, bind at 1.
  destruct (parse_hygro_data root d) as [[[]|e1] d1]; [|done]. simpl.
  unfold bind at 1.
  destruct (parse_light_data root d1) as [[[]|e2] d2]; [|done]. simpl.
  unfold bind at 1.
  by destruct (parse_cloud_data root d2) as [[[]|e3] d3].
Qed.

Lemma block_returns (o : Result unit) (ok : bool) :
  match o with Ret _ => ok = true | Throw _ => ok = false end ->
  ok = true -> o = Ret tt.
Proof. destruct o as [[]|]; [done|]. by intros -> ?. Qed.

(** A parse that succeeds runs the three blocks to their end, sets the
    flag and logs. *)
Lemma parseJSONData_blocks reader jsonData root d :
  reader jsonData = Ret (inl root) ->
  extractable root = true ->
  exists d1 d2 d3,
    parse_hygro_data root d = (Ret tt, d1)
    /\ parse_light_data root d1 = (Ret tt, d2)
    /\ parse_cloud_data root d2 = (Ret tt, d3)
    /\ parseJSONData reader jsonData d
       = (Ret true,
          mkDriver
            (mkWeatherData
               (temperature (weatherData d3)) (humidity (weatherData d3))
               (dewPoint (weatherData d3)) (lux (weatherData d3))
               (skyBrightness (weatherData d3)) (cloudTemp (weatherData d3))
               (avgCloudTemp (weatherData d3)) true)
            (apiUrl d3) (ApiUrlT0 d3) (ApiUrlTP_s d3) (StatusT1 d3)
            (StatusTP_s d3) (ApiUrlTP_name d3) (StatusTP_name d3)
            (deviceName d3) (connected d3) (pollingPeriod d3)
            (calls d3
             ++ [LOG DEBUG (Parsed_data (temperature (weatherData d3))
                                        (humidity (weatherData d3))
                                        (lux (weatherData d3))
                                        (skyBrightness (weatherData d3)))])).
Proof.
  intros Hr Hx. unfold extractable in Hx.
  apply andb_prop in Hx as [Hx H3]. apply andb_prop in Hx as [H1 H2].
  pose proof (parse_hygro_data_outcome root d) as O1.
  destruct (parse_hygro_data root d) as [o1 d1] eqn:E1.
  rewrite (block_returns o1 _ O1 H1) in *.
  pose proof (parse_light_data_outcome root d1) as O2.
  destruct (parse_light_data root d1) as [o2 d2] eqn:E2.
  rewrite (block_returns o2 _ O2 H2) in *.
  pose proof (parse_cloud_data_outcome root d2) as O3.
  destruct (parse_cloud_data root d2) as [o3 d3] eqn:E3.
  rewrite (block_returns o3 _ O3 H3) in *.
  exists d1, d2, d3. split; [done|]. split; [done|]. split; [done|].
  unfold parseJSONData. rewrite Hr, bind_lift_ret. unfold try_catch, bind.
  by rewrite E1, E2, E3.
Qed.

(** Once the block of [hygro] has completed, its fields stay as it left
    them and the calls it made stay at the front of what follows. *)
Lemma parseJSONData_after_hygro reader jsonData root d :
  reader jsonData = Ret (inl root) ->
  fst (parse_hygro_data root d) = Ret tt ->
  let d1 := snd (parse_hygro_data root d) in
  let d' := snd (parseJSONData reader jsonData d) in
  (exists rest, calls d' = (calls d1 ++ rest)%list)
  /\ temperature (weatherData d') = temperature (weatherData d1)
  /\ humidity (weatherData d') = humidity (weatherData d1)
  /\ dewPoint (weatherData d') = dewPoint (weatherData d1).
Proof.
  intros Hr H1. simpl.
  rewrite (parseJSONData_stages reader jsonData root d Hr), H1. simpl.
  set (d1 := snd (parse_hygro_data root d)).
  destruct (block_frame _ root _ d1 (parse_light_data_wp root))
    as (p2 & evs2 & F2 & C2 & [W2 _]).
  set (d2 := snd (parse_light_data root d1)) in *.
  destruct (block_frame _ root _ d2 (parse_cloud_data_wp root))
    as (p3 & evs3 & F3 & C3 & [W3 _]).
  set (d3 := snd (parse_cloud_data root d2)) in *.
  destruct (fst (parse_light_data root d1)) as [[]|e2];
    [destruct (fst (parse_cloud_data root d2)) as [[]|e3]|]; simpl.
  all: rewrite ?C3, ?F3, ?C2, ?F2; simpl.
  all: rewrite ?(W3 f_temperature), ?(W3 f_humidity), ?(W3 f_dewPoint),
         ?(W2 f_temperature), ?(W2 f_humidity), ?(W2 f_dewPoint); try done.
  all: split; [|done]; rewrite <- !app_assoc; by eexists.
Qed.

(** The same for the block of [light]. *)
Lemma parseJSONData_after_light reader jsonData root d :
  reader jsonData = Ret (inl root) ->
  fst (parse_hygro_data root d) = Ret tt ->
  let d1 := snd (parse_hygro_data root d) in
  fst (parse_light_data root d1) = Ret tt ->
  let d2 := snd (parse_light_data root d1) in
  let d' := snd (parseJSONData reader jsonData d) in
  (exists rest, calls d' = (calls d2 ++ rest)%list)
  /\ lux (weatherData d') = lux (weatherData d2)
  /\ skyBrightness (weatherData d') = skyBrightness (weatherData d2).
Proof.
  intros Hr H1 d1 H2. simpl.
  rewrite (parseJSONData_stages reader jsonData root d Hr), H1. simpl.
  fold d1. rewrite H2.
  set (d2 := snd (parse_light_data root d1)).
  destruct (block_frame _ root _ d2 (parse_cloud_data_wp root))
    as (p3 & evs3 & F3 & C3 & [W3 _]).
  set (d3 := snd (parse_cloud_data root d2)) in *.
  destruct (fst (parse_cloud_data root d2)) as [[]|e3]; simpl.
  all: rewrite ?C3, ?F3; simpl.
  all: rewrite ?(W3 f_lux), ?(W3 f_skyBrightness); try done.
  all: split; [|done]; rewrite <- !app_assoc; by eexists.
Qed.

(** The calls of a parse that succeeds, in their order. *)
Lemma parseJSONData_publications
    (reader : string -> Result (Json.Value + string)) (jsonData : string)
    (root : Json.Value) (d : Driver) :
  reader jsonData = Ret (inl root) ->
  extractable root = true ->
  let w := weatherData d in
  let d' := snd (parseJSONData reader jsonData d) in
  let w' := weatherData d' in
  calls d'
  = (calls d ++ publications root w'
     ++ [LOG DEBUG (Parsed_data (temperature w') (humidity w') (lux w')
                                (skyBrightness w'))])%list.
Proof.
  intros Hr Hx w d' w'.
  destruct (parseJSONData_blocks reader jsonData root d Hr Hx)
    as (d1 & d2 & d3 & E1 & E2 & E3 & E).
  subst w' d' w. rewrite E. clear E. simpl.
  pose proof (parse_hygro_data_calls root d) as C1.
  pose proof (parse_light_data_calls root d1) as C2.
  pose proof (parse_cloud_data_calls root d2) as C3.
  destruct (block_frame _ root _ d1 (parse_light_data_wp root))
    as (p2 & _ & F2 & _ & [W2 _]).
  destruct (block_frame _ root _ d2 (parse_cloud_data_wp root))
    as (p3 & _ & F3 & _ & [W3 _]).
  rewrite E1 in C1. rewrite E2 in C2, F2. rewrite E3 in C3, F3.
  simpl in C1, C2, C3, F2, F3.
  rewrite C3, C2, C1. unfold publications, get_cloudTemp.
  rewrite F3, F2. simpl.
  rewrite (W3 f_temperature), (W3 f_humidity), (W3 f_dewPoint), (W3 f_lux),
    (W3 f_skyBrightness), (W2 f_temperature), (W2 f_humidity),
    (W2 f_dewPoint); try done.
  simpl. by rewrite <- !app_assoc.
Qed.

(** ** Integers that a [double] holds exactly *)

Lemma digits2_pos_iter p k :
  digits2_pos (Pos.iter xO p k) = (digits2_pos p + k)%positive.
Proof.
  induction k as [|k IH] using Pos.peano_ind.
  - simpl. lia.
  - rewrite Pos.iter_succ. simpl. rewrite IH. lia.
Qed.

Lemma Zpos_iter p k : Z.pos (Pos.iter xO p k) = Z.pos p * 2 ^ Z.pos k.
Proof.
  induction k as [|k IH] using Pos.peano_ind.
  - simpl. lia.
  - rewrite Pos.iter_succ, Pos2Z.inj_succ, Z.pow_succ_r by lia.
    rewrite Pos2Z.inj_xO, IH. lia.
Qed.

Lemma digits2_pos_bound p :
  2 ^ (Z.pos (digits2_pos p) - 1) <= Z.pos p < 2 ^ Z.pos (digits2_pos p).
Proof.
  induction p as [p IH|p IH|]; simpl digits2_pos.
  - rewrite Pos2Z.inj_succ, Z.pow_succ_r by lia.
    replace (Z.succ (Z.pos (digits2_pos p)) - 1)
      with (Z.succ (Z.pos (digits2_pos p) - 1)) by lia.
    rewrite Z.pow_succ_r by lia. lia.
  - rewrite Pos2Z.inj_succ, Z.pow_succ_r by lia.
    replace (Z.succ (Z.pos (digits2_pos p)) - 1)
      with (Z.succ (Z.pos (digits2_pos p) - 1)) by lia.
    rewrite Z.pow_succ_r by lia. lia.
  - simpl. lia.
Qed.

(** A mantissa of 53 bits with an exponent in range is not rounded. *)
Lemma binary_round_aux_exact s m e :
  Z.pos (digits2_pos m) = 53 -> -1074 <= e <= 971 ->
  binary_round_aux 53 1024 s (Z.pos m) e loc_Exact = S754_finite s m e.
Proof.
  intros Hd He.
  assert (Hm : Z.max (53 + e - 53) (3 - 1024 - 53) - e = 0) by lia.
  unfold binary_round_aux, shr_fexp, fexp, emin.
  cbn [Zdigits2]. rewrite Hd, Hm.
  cbn [shr shr_record_of_loc shr_m loc_of_shr_record round_nearest_even
       Zdigits2].
  rewrite Hd, Hm. cbn [shr shr_m].
  destruct (e <=? 1024 - 53) eqn:E; [done|]. apply Z.leb_gt in E. lia.
Qed.

(** An integer below 2^53 is shifted to 53 bits and keeps its value. *)
Lemma binary_round_small s p :
  Z.pos p < 2 ^ 53 ->
  exists m e,
    binary_round 53 1024 s p 0 = S754_finite s m e
    /\ e <= 0 /\ Z.pos m = Z.pos p * 2 ^ (- e).
Proof.
  intros Hp.
  assert (HD : Z.pos (digits2_pos p) <= 53).
  { destruct (digits2_pos_bound p) as [Hl _].
    destruct (Z.le_gt_cases (Z.pos (digits2_pos p)) 53) as [|Hgt]; [done|].
    assert (2 ^ 53 <= 2 ^ (Z.pos (digits2_pos p) - 1))
      by (apply Z.pow_le_mono_r; lia).
    lia. }
  unfold binary_round, shl_align, fexp, emin.
  rewrite Z.add_0_r.
  replace (Z.max (Z.pos (digits2_pos p) - 53) (3 - 1024 - 53))
    with (Z.pos (digits2_pos p) - 53) by lia.
  rewrite Z.sub_0_r.
  destruct (Z.pos (digits2_pos p) - 53) as [|k|k] eqn:Hk; [|lia|].
  - exists p, 0. split; [|split; [lia|simpl; lia]].
    apply binary_round_aux_exact; lia.
  - exists (Pos.iter xO p k), (Z.neg k). split; [|split; [lia|]].
    + apply binary_round_aux_exact; [|lia].
      rewrite digits2_pos_iter. lia.
    + rewrite Zpos_iter. simpl. done.
Qed.

(** [static_cast<double>] is exact on integers of magnitude up to 2^53. *)
Lemma double_of_Z_exact n :
  Z.abs n <= 2 ^ 53 -> is_integer (double_of_Z n) n = true.
Proof.
  intros Hn.
  destruct (Z.eq_dec (Z.abs n) (2 ^ 53)) as [Heq|Hne].
  { assert (n = 2 ^ 53 \/ n = - 2 ^ 53) as [-> | ->] by lia; reflexivity. }
  unfold double_of_Z, binary_normalize.
  destruct n as [|p|p]; [done|..].
  - destruct (binary_round_small false p) as (m & e & -> & He & Hm); [lia|].
    unfold is_integer. destruct (0 <=? e) eqn:E; apply Z.eqb_eq.
    + apply Z.leb_le in E. assert (e = 0) as -> by lia.
      change (- 0) with 0 in Hm. rewrite Z.pow_0_r in *. lia.
    + done.
  - destruct (binary_round_small true p) as (m & e & -> & He & Hm); [lia|].
    unfold is_integer. destruct (0 <=? e) eqn:E; apply Z.eqb_eq.
    + apply Z.leb_le in E. assert (e = 0) as -> by lia.
      change (- 0) with 0 in Hm. rewrite Z.pow_0_r in *. lia.
    + change (Z.neg m) with (- Z.pos m). change (Z.neg p) with (- Z.pos p).
      rewrite Hm. ring.
Qed.

Lemma numeric_converted v x :
  Json.isNumeric v = true -> Json.asDouble v = Ret x -> converted v x.
Proof.
  intros Hn Hx. split; [done|].
  destruct v; try done; simpl in Hx; injection Hx as <-; try done.
  all: apply double_of_Z_exact.
Qed.

(** * The properties claimed of the driver *)

(** C1.  The validity flag is false in the driver as constructed; a parse
    sets it exactly when it returns [true] and otherwise leaves it as it
    was; no callback of the driver ever resets it: after any sequence of
    callbacks the flag is true exactly if it was true before or one of the
    polls of the sequence succeeded.  So [updateWeather] answers [IPS_ALERT]
    as long as no poll has succeeded and [IPS_OK] ever after. *)
Theorem validity_flag_monotone (reader : string -> Result (Json.Value + string)) :
  dataValid (weatherData amsky01_api) = false
  /\ (forall jsonData d,
        dataValid (weatherData (snd (parseJSONData reader jsonData d)))
        = returned_true (fst (parseJSONData reader jsonData d))
          || dataValid (weatherData d))
  /\ (forall cb d,
        dataValid (weatherData (run reader cb d))
        = poll_succeeds reader cb d || dataValid (weatherData d))
  /\ (forall cbs d,
        dataValid (weatherData (runs reader cbs d))
        = some_poll_succeeds reader cbs d || dataValid (weatherData d))
  /\ (forall cbs cbs',
        some_poll_succeeds reader (cbs ++ cbs') amsky01_api
        = some_poll_succeeds reader cbs amsky01_api
          || some_poll_succeeds reader cbs' (runs reader cbs amsky01_api))
  /\ (forall d,
        fst (updateWeather d)
        = Ret (if dataValid (weatherData d) then IPS_OK else IPS_ALERT))
  /\ (forall cbs,
        fst (updateWeather (runs reader cbs amsky01_api))
        = Ret (if some_poll_succeeds reader cbs amsky01_api
               then IPS_OK else IPS_ALERT)).
Proof.
  split; [done|]. split.
  { intros jsonData d.
    destruct (parseJSONData_run reader jsonData d) as (p & evs & _ & -> & V & _).
    simpl. by rewrite V, returned_true_parse_result. }
  split; [apply run_dataValid|].
  split; [apply runs_dataValid|].
  split; [intros; apply some_poll_succeeds_app|].
  split; [apply updateWeather_returns|].
  intros cbs. rewrite updateWeather_returns, runs_dataValid. simpl.
  by rewrite orb_false_r.
Qed.

(** C2.  When the reader accepts a text, the parse leaves the fields of a
    namespace that is absent from the document at their previous values,
    and it leaves a field at its previous value when its key is absent
    from a namespace that is present; whether the parse succeeds or not. *)
Theorem absent_fields_keep_value
    (reader : string -> Result (Json.Value + string)) (jsonData : string)
    (root : Json.Value) (d : Driver) :
  reader jsonData = Ret (inl root) ->
  let w := weatherData d in
  let w' := weatherData (snd (parseJSONData reader jsonData d)) in
  (Json.find root "hygro" = Ret None ->
     temperature w' = temperature w /\ humidity w' = humidity w
     /\ dewPoint w' = dewPoint w)
  /\ (Json.find root "light" = Ret None ->
        lux w' = lux w /\ skyBrightness w' = skyBrightness w)
  /\ (Json.find root "cloud" = Ret None -> cloudTemp w' = cloudTemp w)
  /\ (forall hygro, Json.find root "hygro" = Ret (Some hygro) ->
        (Json.find hygro "temp" = Ret None -> temperature w' = temperature w)
        /\ (Json.find hygro "rh" = Ret None -> humidity w' = humidity w)
        /\ (Json.find hygro "dew_point" = Ret None -> dewPoint w' = dewPoint w))
  /\ (forall light, Json.find root "light" = Ret (Some light) ->
        (Json.find light "lux" = Ret None -> lux w' = lux w)
        /\ (Json.find light "sqm" = Ret None ->
              skyBrightness w' = skyBrightness w))
  /\ (forall cloud, Json.find root "cloud" = Ret (Some cloud) ->
        Json.find cloud "center" = Ret None -> cloudTemp w' = cloudTemp w).
Proof.
  intros Hr w w'.
  destruct (parseJSONData_accepted reader jsonData root d Hr) as (p & Hw & S).
  subst w'. rewrite Hw. clear Hw.
  assert (Ha : forall f, Json.find root (fst (source f)) = Ret None ->
                         assigned p f = None).
  { intros f Hf.
    by apply (unprovided_unassigned root), provided_absent_namespace. }
  assert (Hk : forall f ns, Json.find root (fst (source f)) = Ret (Some ns) ->
                            Json.find ns (snd (source f)) = Ret None ->
                            assigned p f = None).
  { intros f ns Hf Hn.
    by apply (unprovided_unassigned root), (provided_absent_key root f ns). }
  simpl. split; [|split; [|split; [|split; [|split]]]].
  - intros H.
    by rewrite (Ha f_temperature H), (Ha f_humidity H), (Ha f_dewPoint H).
  - intros H. by rewrite (Ha f_lux H), (Ha f_skyBrightness H).
  - intros H. by rewrite (Ha f_center H).
  - intros hygro H. split; [|split]; intros H'.
    + by rewrite (Hk f_temperature hygro H H').
    + by rewrite (Hk f_humidity hygro H H').
    + by rewrite (Hk f_dewPoint hygro H H').
  - intros light H. split; intros H'.
    + by rewrite (Hk f_lux light H H').
    + by rewrite (Hk f_skyBrightness light H H').
  - intros cloud H H'. by rewrite (Hk f_center cloud H H').
Qed.

(** A witness of C2: the example document of the specification, which
    has the namespace [hygro] only. *)
Lemma absent_fields_keep_value_witness :
  let w' := weatherData
              (snd (parseJSONData sample_reader text_hygro amsky01_api)) in
  lux w' = d0 /\ skyBrightness w' = d0 /\ cloudTemp w' = replicate 5 d0.
Proof.
  destruct (absent_fields_keep_value sample_reader text_hygro tree_hygro
              amsky01_api eq_refl) as (_ & Hlight & Hcloud & _).
  destruct (Hlight eq_refl) as [Hlux Hsqm].
  split; [exact Hlux|]. split; [exact Hsqm|]. exact (Hcloud eq_refl).
Defined.




(** C4, as it holds.  When the document has the three namespaces as
    objects and the six fields in them are numbers, the parse returns
    [true] and every field of the snapshot holds what [asDouble] gives for
    its number: a real as jsoncpp holds it; an integer converted to
    [double], which is the integer itself when its magnitude is at most
    2^53 and the nearest double beyond.  The centre temperature is stored
    in slot 4 of [cloudTemp]. *)
Theorem full_document_updates_every_field
    (reader : string -> Result (Json.Value + string)) (jsonData : string)
    (root hygro light cloud temp rh dew_point lx sqm center : Json.Value)
    (d : Driver) :
  reader jsonData = Ret (inl root) ->
  namespace root "hygro" hygro ->
  numeric_member hygro "temp" temp ->
  numeric_member hygro "rh" rh ->
  numeric_member hygro "dew_point" dew_point ->
  namespace root "light" light ->
  numeric_member light "lux" lx ->
  numeric_member light "sqm" sqm ->
  namespace root "cloud" cloud ->
  numeric_member cloud "center" center ->
  exists d',
    parseJSONData reader jsonData d = (Ret true, d')
    /\ converted temp (temperature (weatherData d'))
    /\ converted rh (humidity (weatherData d'))
    /\ converted dew_point (dewPoint (weatherData d'))
    /\ converted lx (lux (weatherData d'))
    /\ converted sqm (skyBrightness (weatherData d'))
    /\ (exists x, converted center x
                  /\ cloudTemp (weatherData d')
                     = <[4%nat := x]> (cloudTemp (weatherData d))
                  /\ (length (cloudTemp (weatherData d)) = 5%nat ->
                      cloudTemp (weatherData d') !! 4%nat = Some x))
    /\ dataValid (weatherData d') = true.
Proof.
  intros Hr Hh Ht Hrh Hd Hl Hlx Hs Hc Hce.
  assert (Hx : extractable root = true).
  { unfold extractable.
    rewrite (namespace_ok_numeric root "hygro" hygro),
      (namespace_ok_numeric root "light" light),
      (namespace_ok_numeric root "cloud" cloud); try done;
      repeat constructor; eauto. }
  destruct (parseJSONData_success reader jsonData root d Hr Hx)
    as (evs & _ & ->).
  destruct (provided_numeric root f_temperature hygro temp Hh Ht)
    as (xt & At & Pt).
  destruct (provided_numeric root f_humidity hygro rh Hh Hrh) as (xh & Ah & Ph).
  destruct (provided_numeric root f_dewPoint hygro dew_point Hh Hd)
    as (xd & Ad & Pd).
  destruct (provided_numeric root f_lux light lx Hl Hlx) as (xl & Al & Pl).
  destruct (provided_numeric root f_skyBrightness light sqm Hl Hs)
    as (xs & As & Ps).
  destruct (provided_numeric root f_center cloud center Hc Hce)
    as (xc & Ac & Pc).
  eexists; split; [reflexivity|]. simpl.
  rewrite Pt, Ph, Pd, Pl, Ps, Pc. simpl.
  split; [by apply numeric_converted; [apply Ht|]|].
  split; [by apply numeric_converted; [apply Hrh|]|].
  split; [by apply numeric_converted; [apply Hd|]|].
  split; [by apply numeric_converted; [apply Hlx|]|].
  split; [by apply numeric_converted; [apply Hs|]|].
  split; [|done]. exists xc.
  split; [by apply numeric_converted; [apply Hce|]|]. split; [done|].
  intros Hlen. apply list_lookup_insert_eq. rewrite Hlen. lia.
Qed.

(** A witness of C4: a document with the three namespaces and the six
    fields, reals and integers within 2^53. *)
Lemma full_document_updates_every_field_witness :
  exists d',
    parseJSONData sample_reader text_full amsky01_api = (Ret true, d')
    /\ temperature (weatherData d') = S754_finite false 7036874417766400 (-49)
    /\ humidity (weatherData d') = S754_finite false 7740561859543040 (-47)
    /\ is_integer (humidity (weatherData d')) 55 = true
    /\ cloudTemp (weatherData d')
       = [d0; d0; d0; d0; S754_finite true 5629499534213120 (-48)].
Proof.
  destruct (full_document_updates_every_field sample_reader text_full tree_full
              (Json.objectValue
                 [("dew_point",
                   Json.realValue (S754_finite false 4616189618054758 (-50)));
                  ("rh", Json.intValue 55);
                  ("temp",
                   Json.realValue (S754_finite false 7036874417766400 (-49)))])
              (Json.objectValue
                 [("lux", Json.intValue 120);
                  ("sqm",
                   Json.realValue (S754_finite false 6051711999279104 (-48)))])
              (Json.objectValue [("center", Json.intValue (-20))])
              (Json.realValue (S754_finite false 7036874417766400 (-49)))
              (Json.intValue 55)
              (Json.realValue (S754_finite false 4616189618054758 (-50)))
              (Json.intValue 120)
              (Json.realValue (S754_finite false 6051711999279104 (-48)))
              (Json.intValue (-20))
              amsky01_api)
    as (d' & Hp & [_ Ht] & [Hh Hh'] & _ & _ & _ & (x & [Hx _] & Hc & _) & _);
    try (split; reflexivity); try reflexivity.
  exists d'. split; [exact Hp|]. split; [exact Ht|].
  injection Hh as Hh. injection Hx as Hx.
  split; [by rewrite <- Hh|]. split; [apply Hh'; simpl; lia|].
  rewrite Hc, <- Hx. reflexivity.
Defined.

(** C4 as stated fails: the integer 2^53 + 1 is a numeric value, and the
    temperature the parse stores for it stands for 2^53. *)
Lemma large_integer_is_rounded :
  wider_reader text_big = Ret (inl tree_big)
  /\ fst (parseJSONData wider_reader text_big amsky01_api) = Ret true
  /\ temperature
       (weatherData (snd (parseJSONData wider_reader text_big amsky01_api)))
     = S754_finite false 4503599627370496 1
  /\ is_integer (S754_finite false 4503599627370496 1) 9007199254740992 = true
  /\ is_integer (S754_finite false 4503599627370496 1) 9007199254740993 = false
  /\ ~ (forall (reader : string -> Result (Json.Value + string)) jsonData
               root hygro light cloud temp rh dew_point lx sqm center d i,
          reader jsonData = Ret (inl root) ->
          namespace root "hygro" hygro ->
          numeric_member hygro "temp" temp ->
          numeric_member hygro "rh" rh ->
          numeric_member hygro "dew_point" dew_point ->
          namespace root "light" light ->
          numeric_member light "lux" lx ->
          numeric_member light "sqm" sqm ->
          namespace root "cloud" cloud ->
          numeric_member cloud "center" center ->
          temp = Json.intValue i ->
          is_integer
            (temperature
               (weatherData (snd (parseJSONData reader jsonData d)))) i
          = true).
Proof.
  split; [reflexivity|]. split; [reflexivity|]. split; [reflexivity|].
  split; [reflexivity|]. split; [reflexivity|].
  intros H.
  specialize (H wider_reader text_big tree_big
                (Json.objectValue
                   [("dew_point",
                     Json.realValue (S754_finite false 4616189618054758 (-50)));
                    ("rh", Json.intValue 55);
                    ("temp", Json.intValue 9007199254740993)])
                (Json.objectValue
                   [("lux", Json.intValue 120);
                    ("sqm",
                     Json.realValue (S754_finite false 6051711999279104 (-48)))])
                (Json.objectValue [("center", Json.intValue (-20))])
                (Json.intValue 9007199254740993)
                (Json.intValue 55)
                (Json.realValue (S754_finite false 4616189618054758 (-50)))
                (Json.intValue 120)
                (Json.realValue (S754_finite false 6051711999279104 (-48)))
                (Json.intValue (-20))
                amsky01_api 9007199254740993
                eq_refl (conj eq_refl eq_refl) (conj eq_refl eq_refl)
                (conj eq_refl eq_refl) (conj eq_refl eq_refl)
                (conj eq_refl eq_refl) (conj eq_refl eq_refl)
                (conj eq_refl eq_refl) (conj eq_refl eq_refl)
                (conj eq_refl eq_refl) eq_refl).
  vm_compute in H. discriminate H.
Qed.

(** C5, as it holds.  [Connect] ends as its one poll ends.  The poll
    returns [true] exactly if libcurl gave a handle, the transfer
    succeeded, the status is 200, the reader accepts the body and
    extraction completes on its tree.  It returns [false] exactly if the
    transfer did not complete with status 200, or the reader rejects the
    body, or the reader accepts it and extraction throws.  What is left is
    an exception of the reader itself on the body of a completed transfer:
    it leaves the poll and [Connect].  After the poll the snapshot is
    valid if the poll returned [true] or the snapshot was valid before. *)
Theorem Connect_succeeds_iff
    (reader : string -> Result (Json.Value + string)) (net : string -> Transfer)
    (d : Driver) :
  let t := net (apiUrl d) in
  let completed := curl t && (res t =? CURLE_OK) && (http_code t =? 200) in
  let ok := completed
            && match reader (readBuffer t) with
               | Ret (inl root) => extractable root
               | _ => false
               end in
  let outcome := match reader (readBuffer t) with
                 | Throw what => if completed then Throw what else Ret false
                 | _ => Ret ok
                 end in
  fst (Connect reader net d) = outcome
  /\ fst (readHTTPData reader net d) = outcome
  /\ (fst (Connect reader net d) = Ret true <-> ok = true)
  /\ (fst (readHTTPData reader net d) = Ret false
      <-> completed = false
          \/ (exists errs, reader (readBuffer t) = Ret (inr errs))
          \/ (exists root, reader (readBuffer t) = Ret (inl root)
                           /\ extractable root = false))
  /\ dataValid (weatherData (snd (readHTTPData reader net d)))
     = ok || dataValid (weatherData d).
Proof.
  cbv zeta.
  destruct (Connect_run reader net d) as (p & evs & -> & _).
  destruct (readHTTPData_run reader net d) as (q & evs' & _ & -> & V & _).
  cbv zeta in V. cbn [fst snd]. unfold touch; cbn [weatherData].
  rewrite patch_dataValid, V.
  unfold poll_result, parse_result, polls, parses, transferred.
  destruct (curl _ && (res _ =? CURLE_OK) && (http_code _ =? 200));
    destruct (reader _) as [[root|errs]|what]; simpl;
    try destruct (extractable root) eqn:Hx.
  all: split; [done|]; split; [done|]; split; [done|]; split; [|done].
  all: split; [intros ?|intros [?|[[? ?]|(? & ? & ?)]]];
    simplify_eq; eauto.
  all: try congruence.
Qed.

(** C5 as stated fails: the transfer completes with status 200, the body
    [{"hygro":{"temp":"warm"}}] is valid JSON, and [Connect] returns
    [false]. *)
Lemma Connect_fails_on_valid_JSON :
  transferred (answer text_warm (apiUrl amsky01_api)) = true
  /\ sample_reader (readBuffer (answer text_warm (apiUrl amsky01_api)))
     = Ret (inl tree_warm)
  /\ fst (Connect sample_reader (answer text_warm) amsky01_api) = Ret false
  /\ ~ (forall (reader : string -> Result (Json.Value + string)) net d,
          fst (Connect reader net d) = Ret true
          <-> (transferred (net (apiUrl d)) = true
               /\ exists root, reader (readBuffer (net (apiUrl d))) = Ret (inl root))).
Proof.
  split; [reflexivity|]. split; [reflexivity|]. split; [reflexivity|].
  intros H.
  destruct (H sample_reader (answer text_warm) amsky01_api) as [_ H'].
  discriminate H'. split; [reflexivity|]. by exists tree_warm.
Qed.

(** C6.  Parsing the same text twice in a row leaves the snapshot, every
    sensor field and the validity flag, as parsing it once does, and
    returns the same result. *)
Theorem parseJSONData_idempotent
    (reader : string -> Result (Json.Value + string)) (jsonData : string) (d : Driver) :
  let once := parseJSONData reader jsonData d in
  let twice := parseJSONData reader jsonData (snd once) in
  weatherData (snd twice) = weatherData (snd once)
  /\ fst twice = fst once.
Proof.
  destruct (parseJSONData_effect reader jsonData) as (p & E & _).
  simpl. destruct (E d) as (evs & _ & ->). simpl.
  destruct (E (touch p evs d)) as (evs' & _ & ->). simpl.
  split; [apply patch_idempotent|done].
Qed.

(** C7, as it holds.  When the reader accepts a text, the parse returns
    [true] and marks the snapshot valid exactly if extraction completes on
    the tree: the root is an object or null, and in each of [hygro],
    [light] and [cloud] that is an object every field the parser reads is
    absent, null, a boolean or a number.  Absent namespaces do not matter. *)
Theorem extractable_document_marks_valid
    (reader : string -> Result (Json.Value + string)) (jsonData : string)
    (root : Json.Value) (d : Driver) :
  reader jsonData = Ret (inl root) ->
  fst (parseJSONData reader jsonData d) = Ret (extractable root)
  /\ dataValid (weatherData (snd (parseJSONData reader jsonData d)))
     = extractable root || dataValid (weatherData d).
Proof.
  intros Hr. destruct (parseJSONData_returns reader jsonData d) as [-> ->].
  unfold parse_result, parses. by rewrite Hr.
Qed.

(** A witness of C7: the empty object. *)
Lemma extractable_document_marks_valid_witness :
  fst (parseJSONData sample_reader text_empty amsky01_api) = Ret true
  /\ dataValid (weatherData
                  (snd (parseJSONData sample_reader text_empty amsky01_api)))
     = true.
Proof.
  exact (extractable_document_marks_valid sample_reader text_empty tree_empty
           amsky01_api eq_refl).
Defined.

(** C7 as stated fails: the reader accepts [{"hygro":{"temp":"warm"}}],
    [asDouble] throws on the string, the parse returns [false] and the
    snapshot is not marked valid. *)
Lemma accepted_document_not_marked_valid :
  sample_reader text_warm = Ret (inl tree_warm)
  /\ fst (parseJSONData sample_reader text_warm amsky01_api) = Ret false
  /\ dataValid (weatherData
                  (snd (parseJSONData sample_reader text_warm amsky01_api)))
     = false
  /\ ~ (forall (reader : string -> Result (Json.Value + string)) jsonData root d,
          reader jsonData = Ret (inl root) ->
          fst (parseJSONData reader jsonData d) = Ret true
          /\ dataValid (weatherData (snd (parseJSONData reader jsonData d)))
             = true).
Proof.
  split; [reflexivity|]. split; [reflexivity|]. split; [reflexivity|].
  intros H.
  destruct (H sample_reader text_warm tree_warm amsky01_api eq_refl) as [E _].
  discriminate E.
Qed.



(** C9.  Of the five slots of [cloudTemp] only slot 4 is ever assigned:
    after any sequence of callbacks the array still has five slots, slots
    0 to 3 and [avgCloudTemp] hold their initial zero; a callback leaves
    the array as it was or assigns slot 4; and a parse assigns slot 4 only
    if the namespace [cloud] of the document is an object whose member
    [center] is not null, and then with the value [asDouble] gives it. *)
Theorem cloudTemp_only_center (reader : string -> Result (Json.Value + string)) :
  (forall cbs,
     let w := weatherData (runs reader cbs amsky01_api) in
     take 4 (cloudTemp w) = replicate 4 d0
     /\ length (cloudTemp w) = 5%nat
     /\ avgCloudTemp w = d0)
  /\ (forall cb d,
        let w := weatherData d in
        let w' := weatherData (run reader cb d) in
        avgCloudTemp w' = avgCloudTemp w
        /\ (cloudTemp w' = cloudTemp w
            \/ exists x, cloudTemp w' = <[4%nat := x]> (cloudTemp w)))
  /\ (forall jsonData d,
        let w := weatherData d in
        let w' := weatherData (snd (parseJSONData reader jsonData d)) in
        avgCloudTemp w' = avgCloudTemp w
        /\ (cloudTemp w' = cloudTemp w
            \/ exists root cloud center x,
                 reader jsonData = Ret (inl root)
                 /\ Json.find root "cloud" = Ret (Some cloud)
                 /\ Json.isObject cloud = true
                 /\ Json.find cloud "center" = Ret (Some center)
                 /\ Json.isNull center = false
                 /\ Json.asDouble center = Ret x
                 /\ cloudTemp w' = <[4%nat := x]> (cloudTemp w))).
Proof.
  split; [|split].
  - intros cbs. induction cbs as [|cb cbs IH] using rev_ind; [done|].
    rewrite runs_app. simpl in *.
    change (runs reader [cb] ?d) with (run reader cb d).
    destruct (run_weatherData reader cb (runs reader cbs amsky01_api))
      as (p & -> & _).
    destruct (patch_cloudTemp p (weatherData (runs reader cbs amsky01_api)))
      as (-> & -> & -> & _).
    exact IH.
  - intros cb d. simpl.
    destruct (run_weatherData reader cb d) as (p & -> & _).
    destruct (patch_cloudTemp p (weatherData d)) as (-> & _ & _ & ->).
    split; [done|]. destruct (assigned p f_center); eauto.
  - intros jsonData d. simpl.
    destruct (parseJSONData_run reader jsonData d) as (p & evs & _ & -> & _ & D).
    simpl fst; simpl snd. unfold touch; simpl weatherData.
    destruct (patch_cloudTemp p (weatherData d)) as (-> & _ & _ & ->).
    split; [done|].
    destruct (assigned p f_center) as [x|] eqn:Hx; [right|by left].
    unfold drawn_from in D. destruct (reader jsonData) as [[root|errs]|what].
    + destruct D as [S _].
      destruct (provided_inv root f_center x (S _ _ Hx))
        as (cloud & center & ? & ? & ? & ? & ?).
      by exists root, cloud, center, x.
    + by rewrite (D f_center) in Hx.
    + by rewrite (D f_center) in Hx.
Qed.

(** C10, as it holds.  When the reader accepts a text in which [hygro] is
    an object and extraction completes in that namespace, the parse
    publishes its three parameters, first of all its calls, with the values
    the snapshot holds after the parse; when [light] is an object and
    extraction completes in [hygro] and in [light], the parse publishes the
    two parameters of [light] likewise.  A field the document does not
    provide keeps the value stored before, so that is the value published
    for it.  When extraction completes in all three namespaces the calls of
    the parse are exactly these publications, that of the centre
    temperature if the document provides one, and the debug line. *)
Theorem extracted_namespace_is_published
    (reader : string -> Result (Json.Value + string)) (jsonData : string)
    (root : Json.Value) (d : Driver) :
  reader jsonData = Ret (inl root) ->
  let w := weatherData d in
  let d' := snd (parseJSONData reader jsonData d) in
  let w' := weatherData d' in
  (is_namespace root "hygro" = true ->
   namespace_ok root "hygro" ["temp"; "rh"; "dew_point"] = true ->
   exists rest,
     calls d'
     = (calls d
        ++ [setParameterValue "WEATHER_TEMPERATURE" (temperature w');
            setParameterValue "WEATHER_HUMIDITY" (humidity w');
            setParameterValue "WEATHER_DEW_POINT" (dewPoint w')]
        ++ rest)%list)
  /\ (is_namespace root "light" = true ->
      namespace_ok root "hygro" ["temp"; "rh"; "dew_point"] = true ->
      namespace_ok root "light" ["lux"; "sqm"] = true ->
      exists before rest,
        calls d'
        = (calls d ++ before
           ++ [setParameterValue "WEATHER_LIGHT_LUX" (lux w');
               setParameterValue "WEATHER_SKY_BRIGHTNESS" (skyBrightness w')]
           ++ rest)%list)
  /\ (provided root f_temperature = None -> temperature w' = temperature w)
  /\ (provided root f_humidity = None -> humidity w' = humidity w)
  /\ (provided root f_dewPoint = None -> dewPoint w' = dewPoint w)
  /\ (provided root f_lux = None -> lux w' = lux w)
  /\ (provided root f_skyBrightness = None ->
      skyBrightness w' = skyBrightness w)
  /\ (extractable root = true ->
      calls d'
      = (calls d ++ publications root w'
         ++ [LOG DEBUG (Parsed_data (temperature w') (humidity w') (lux w')
                                    (skyBrightness w'))])%list).
Proof.
  intros Hr w d' w'.
  split; [|split; [|split; [|split; [|split; [|split; [|split]]]]]].
  - intros Hns Hok.
    pose proof (parse_hygro_data_outcome root d) as O1.
    apply block_returns in O1; [|done].
    destruct (parseJSONData_after_hygro reader jsonData root d Hr O1)
      as ([rest Hc] & Ht & Hh & Hd).
    pose proof (parse_hygro_data_calls root d) as C1.
    simpl in C1. rewrite O1, Hns in C1.
    exists rest. subst w' d'. rewrite Hc, C1, Ht, Hh, Hd.
    by rewrite <- !app_assoc.
  - intros Hns Hok1 Hok2.
    pose proof (parse_hygro_data_outcome root d) as O1.
    apply block_returns in O1; [|done].
    pose proof (parse_light_data_outcome root (snd (parse_hygro_data root d)))
      as O2.
    apply block_returns in O2; [|done].
    destruct (parseJSONData_after_light reader jsonData root d Hr O1 O2)
      as ([rest Hc] & Hl & Hs).
    destruct (block_frame _ root _ d (parse_hygro_data_wp root))
      as (p1 & before & _ & C1 & _).
    pose proof (parse_light_data_calls root (snd (parse_hygro_data root d)))
      as C2.
    simpl in C2. rewrite O2, Hns in C2.
    exists before, rest. subst w' d'. rewrite Hc, C2, C1, Hl, Hs.
    by rewrite <- !app_assoc.
  - intros Hp. subst w' d' w.
    destruct (parseJSONData_accepted reader jsonData root d Hr) as (p & -> & Hs).
    simpl. by rewrite (unprovided_unassigned root p _ Hs Hp).
  - intros Hp. subst w' d' w.
    destruct (parseJSONData_accepted reader jsonData root d Hr) as (p & -> & Hs).
    simpl. by rewrite (unprovided_unassigned root p _ Hs Hp).
  - intros Hp. subst w' d' w.
    destruct (parseJSONData_accepted reader jsonData root d Hr) as (p & -> & Hs).
    simpl. by rewrite (unprovided_unassigned root p _ Hs Hp).
  - intros Hp. subst w' d' w.
    destruct (parseJSONData_accepted reader jsonData root d Hr) as (p & -> & Hs).
    simpl. by rewrite (unprovided_unassigned root p _ Hs Hp).
  - intros Hp. subst w' d' w.
    destruct (parseJSONData_accepted reader jsonData root d Hr) as (p & -> & Hs).
    simpl. by rewrite (unprovided_unassigned root p _ Hs Hp).
  - intros Hx. by apply parseJSONData_publications.
Qed.

(** A witness of C10: [{"hygro":{"temp":12.5}}] on the driver as
    constructed.  Humidity and dew point are absent from the document and
    are published with the values stored before, which are zero. *)
Lemma extracted_namespace_is_published_witness :
  calls (snd (parseJSONData sample_reader text_temp amsky01_api))
  = (calls amsky01_api
     ++ [setParameterValue "WEATHER_TEMPERATURE"
                           (S754_finite false 7036874417766400 (-49));
         setParameterValue "WEATHER_HUMIDITY" d0;
         setParameterValue "WEATHER_DEW_POINT" d0;
         LOG DEBUG (Parsed_data (S754_finite false 7036874417766400 (-49))
                                d0 d0 d0)])%list.
Proof.
  destruct (extracted_namespace_is_published sample_reader text_temp tree_temp
              amsky01_api eq_refl) as (_ & _ & _ & _ & _ & _ & _ & Hcalls).
  exact (Hcalls eq_refl).
Defined.

(** C10 as stated fails: in [{"hygro":{"temp":"warm"}}] the namespace
    [hygro] is an object, [asDouble] throws on the string before the
    parameters are published, and the parse publishes nothing. *)
Lemma hygro_object_not_published :
  sample_reader text_warm = Ret (inl tree_warm)
  /\ is_namespace tree_warm "hygro" = true
  /\ calls (snd (parseJSONData sample_reader text_warm amsky01_api))
     = (calls amsky01_api
        ++ [LOG ERROR (Exception_while_parsing_JSON
                         "Value is not convertible to double.")])%list
  /\ ~ (forall (reader : string -> Result (Json.Value + string)) jsonData root d,
          reader jsonData = Ret (inl root) ->
          is_namespace root "hygro" = true ->
          exists value,
            In (setParameterValue "WEATHER_TEMPERATURE" value)
               (calls (snd (parseJSONData reader jsonData d)))).
Proof.
  split; [reflexivity|]. split; [reflexivity|]. split; [reflexivity|].
  intros H.
  destruct (H sample_reader text_warm tree_warm amsky01_api eq_refl eq_refl)
    as [value Hin].
  destruct Hin as [Hin|[Hin|[Hin|[]]]]; discriminate Hin.
Qed.

(** * Further properties of the driver *)

(** ** [WriteCallback] *)

Lemma substring_whole s : String.substring 0 (String.length s) s = s.
Proof. induction s as [|c s IH]; [done|]. simpl. by rewrite IH. Qed.

Lemma substring_length n s :
  (n <= String.length s)%nat ->
  String.length (String.substring 0 n s) = n.
Proof.
  revert s; induction n as [|n IH]; intros [|c s] Hn; simpl in *; try done.
  - lia.
  - rewrite IH; [done|lia].
Qed.

Lemma string_app_cons c (s t : string) : String c s ++ t = String c (s ++ t).
Proof. done. Qed.

Lemma string_length_app (s t : string) :
  String.length (s ++ t) = (String.length s + String.length t)%nat.
Proof.
  induction s as [|c s IH]; [done|]. rewrite string_app_cons. simpl.
  by rewrite IH.
Qed.

Lemma string_app_assoc (s t u : string) : (s ++ t) ++ u = s ++ t ++ u.
Proof.
  induction s as [|c s IH]; [done|]. rewrite !string_app_cons. by rewrite IH.
Qed.

Lemma string_app_nil_r (s : string) : s ++ "" = s.
Proof.
  induction s as [|c s IH]; [done|]. rewrite string_app_cons. by rewrite IH.
Qed.

Lemma substring_app (s t : string) :
  String.substring 0 (String.length s) (s ++ t) = s.
Proof.
  induction s as [|c s IH]; [by destruct t|].
  rewrite string_app_cons. simpl. by rewrite IH.
Qed.

Lemma WriteCallback_piece piece buffer :
  Z.of_nat (String.length piece) < size_t_modulus ->
  WriteCallback piece 1 (Z.of_nat (String.length piece)) buffer
  = (Z.of_nat (String.length piece), buffer ++ piece).
Proof.
  intros Hlen. unfold WriteCallback.
  rewrite Z.mul_1_l, Z.mod_small by lia.
  by rewrite Nat2Z.id, substring_whole.
Qed.

(** X1.  [WriteCallback] reports as written exactly what it appended: when
    the product [size * nmemb] fits [size_t] and the memory at [contents]
    holds that many bytes, it returns the product and the string grows by
    that many bytes, the old content staying in front. *)
Theorem WriteCallback_appends
    (contents : string) (size nmemb : Z) (userp : string) :
  0 <= size -> 0 <= nmemb -> size * nmemb < size_t_modulus ->
  (Z.to_nat (size * nmemb) <= String.length contents)%nat ->
  let r := WriteCallback contents size nmemb userp in
  fst r = size * nmemb
  /\ Z.of_nat (String.length (snd r)) = Z.of_nat (String.length userp) + fst r
  /\ String.substring 0 (String.length userp) (snd r) = userp.
Proof.
  intros Hs Hn Hfit Hmem. unfold WriteCallback. simpl.
  rewrite Z.mod_small by nia. split; [done|]. split.
  - rewrite string_length_app, substring_length by done. lia.
  - apply substring_app.
Qed.

Lemma WriteCallback_appends_witness :
  WriteCallback "{}" 1 2 "" = (2, "{}").
Proof.
  destruct (WriteCallback_appends "{}" 1 2 "") as (H1 & _ & _);
    [lia|lia|reflexivity|simpl; lia|].
  reflexivity.
Defined.

(** X2.  Whatever the pieces libcurl cuts the body into, after the calls
    the buffer holds what it held before followed by the pieces in their
    order, and every call has acknowledged its piece. *)
Theorem WriteCallback_gathers_body (pieces : list string) (buffer : string) :
  Forall (fun piece => Z.of_nat (String.length piece) < size_t_modulus) pieces ->
  deliver pieces buffer = buffer ++ foldr String.append "" pieces
  /\ acknowledged pieces buffer = true.
Proof.
  intros Hp. revert buffer.
  induction Hp as [|piece pieces Hlen _ IH]; intros buffer.
  - split; [|done]. simpl. by rewrite string_app_nil_r.
  - change (deliver (piece :: pieces) buffer)
      with (deliver pieces
              (snd (WriteCallback piece 1 (Z.of_nat (String.length piece))
                                  buffer))).
    change (acknowledged (piece :: pieces) buffer)
      with (let r := WriteCallback piece 1 (Z.of_nat (String.length piece))
                                   buffer in
            (fst r =? Z.of_nat (String.length piece))
            && acknowledged pieces (snd r)).
    rewrite (WriteCallback_piece piece buffer Hlen). simpl fst; simpl snd.
    destruct (IH (buffer ++ piece)) as [-> Hack]. cbv zeta. rewrite Hack.
    by rewrite string_app_assoc, Z.eqb_refl.
Qed.

Lemma WriteCallback_gathers_body_witness :
  deliver ["{"; "}"] "" = "{}".
Proof.
  destruct (WriteCallback_gathers_body ["{"; "}"] "") as [H _].
  - repeat constructor.
  - exact H.
Defined.

(** ** What the parser reads of a document *)

Lemma parse_hygro_data_reads root d :
  parse_hygro_data root d
  = match fields_read root "hygro" ["temp"; "rh"; "dew_point"] with
    | Throw e => (Throw e, d)
    | Ret None => (Ret tt, d)
    | Ret (Some vs) =>
        parse_hygro_data
          (canonical "hygro" ["temp"; "rh"; "dew_point"] vs) d
    end.
Proof.
  unfold parse_hygro_data, fields_read, canonical, bind, lift, when, ret,
    Json.isMember, Json.subscript, Json.find.
  destruct root; try done. simpl.
  destruct (Json.lookup_member "hygro" members) as [[]|]; try done. simpl.
  by destruct (Json.lookup_member "temp" members0),
       (Json.lookup_member "rh" members0),
       (Json.lookup_member "dew_point" members0).
Qed.

Lemma parse_light_data_reads root d :
  parse_light_data root d
  = match fields_read root "light" ["lux"; "sqm"] with
    | Throw e => (Throw e, d)
    | Ret None => (Ret tt, d)
    | Ret (Some vs) =>
        parse_light_data (canonical "light" ["lux"; "sqm"] vs) d
    end.
Proof.
  unfold parse_light_data, fields_read, canonical, bind, lift, when, ret,
    Json.isMember, Json.subscript, Json.find.
  destruct root; try done. simpl.
  destruct (Json.lookup_member "light" members) as [[]|]; try done. simpl.
  by destruct (Json.lookup_member "lux" members0),
       (Json.lookup_member "sqm" members0).
Qed.

Lemma parse_cloud_data_reads root d :
  parse_cloud_data root d
  = match fields_read root "cloud" ["center"] with
    | Throw e => (Throw e, d)
    | Ret None => (Ret tt, d)
    | Ret (Some vs) => parse_cloud_data (canonical "cloud" ["center"] vs) d
    end.
Proof.
  unfold parse_cloud_data, fields_read, canonical, bind, lift, when, ret,
    Json.isMember, Json.subscript, Json.find.
  destruct root; try done. simpl.
  destruct (Json.lookup_member "cloud" members) as [[]|]; try done. simpl.
  by destruct (Json.lookup_member "center" members0).
Qed.

(** X3.  The parser reads six fields of a document and nothing else.  Two
    texts whose trees agree on them make [parseJSONData] return the same
    result and leave the same driver: other members and other namespaces
    are ignored, a namespace that is not an object counts as absent, and
    a member that is null counts as absent. *)
Theorem parseJSONData_reads_six_fields
    (reader : string -> Result (Json.Value + string)) (jsonData jsonData' : string)
    (root root' : Json.Value) (d : Driver) :
  reader jsonData = Ret (inl root) ->
  reader jsonData' = Ret (inl root') ->
  fields_read root "hygro" ["temp"; "rh"; "dew_point"]
  = fields_read root' "hygro" ["temp"; "rh"; "dew_point"] ->
  fields_read root "light" ["lux"; "sqm"]
  = fields_read root' "light" ["lux"; "sqm"] ->
  fields_read root "cloud" ["center"] = fields_read root' "cloud" ["center"] ->
  parseJSONData reader jsonData d = parseJSONData reader jsonData' d.
Proof.
  intros Hr Hr' Hh Hl Hc.
  rewrite (parseJSONData_stages reader jsonData root d Hr),
    (parseJSONData_stages reader jsonData' root' d Hr').
  cbv zeta.
  assert (E1 : parse_hygro_data root d = parse_hygro_data root' d).
  { by rewrite (parse_hygro_data_reads root), (parse_hygro_data_reads root'), Hh. }
  rewrite E1.
  assert (E2 : parse_light_data root (snd (parse_hygro_data root' d))
               = parse_light_data root' (snd (parse_hygro_data root' d))).
  { by rewrite (parse_light_data_reads root), (parse_light_data_reads root'), Hl. }
  rewrite E2.
  assert (E3 : forall d2, parse_cloud_data root d2 = parse_cloud_data root' d2).
  { intros d2.
    by rewrite (parse_cloud_data_reads root), (parse_cloud_data_reads root'), Hc. }
  by rewrite E3.
Qed.

(** A witness of X3: [{"hygro":{"temp":12.5,"unit":"C","rh":null},
    "light":7,"version":3}] reads as [{"hygro":{"temp":12.5}}]. *)
Lemma parseJSONData_reads_six_fields_witness :
  parseJSONData wider_reader text_noise amsky01_api
  = parseJSONData wider_reader text_temp amsky01_api.
Proof.
  apply (parseJSONData_reads_six_fields wider_reader text_noise text_temp
           tree_noise tree_temp); reflexivity.
Defined.

(** X4.  The root of the document has to be an object.  On a root that is
    an array, a string, a number or a boolean the first [isMember] throws:
    the parse returns [false], logs the exception and leaves the driver
    as it was.  On the root [null] nothing is a member: the parse assigns
    and publishes nothing, marks the snapshot valid and returns [true]. *)
Theorem root_must_be_object
    (reader : string -> Result (Json.Value + string)) (jsonData : string)
    (root : Json.Value) (d : Driver) :
  reader jsonData = Ret (inl root) ->
  Json.isObject root = false ->
  let r := parseJSONData reader jsonData d in
  if Json.isNull root then
    fst r = Ret true
    /\ weatherData (snd r) = patch validate (weatherData d)
    /\ published (calls (snd r)) = published (calls d)
  else
    r = (Ret false,
         after_call
           (LOG ERROR
              (Exception_while_parsing_JSON
                 "in Json::Value::find(begin, end): requires objectValue or nullValue"))
           d).
Proof.
  intros Hr Ho. simpl. unfold parseJSONData. rewrite Hr.
  destruct d as [[] ? ? ? ? ? ? ? ? ? ? cs].
  destruct root; try done; simpl.
  repeat split. unfold published. rewrite omap_app. simpl.
  by rewrite app_nil_r.
Qed.

Lemma root_must_be_object_witness :
  fst (parseJSONData wider_reader text_string amsky01_api) = Ret false
  /\ weatherData (snd (parseJSONData wider_reader text_string amsky01_api))
     = weatherData amsky01_api.
Proof.
  pose proof (root_must_be_object wider_reader text_string
                (Json.stringValue "not json") amsky01_api eq_refl eq_refl) as H.
  simpl in H. by rewrite H.
Defined.

Lemma provided_member root f ns v :
  namespace root (fst (source f)) ns ->
  Json.find ns (snd (source f)) = Ret (Some v) ->
  provided root f
  = if Json.isNull v then None
    else match Json.asDouble v with Ret x => Some x | Throw _ => None end.
Proof.
  intros [Hns Ho] Hv. unfold provided. rewrite Hns.
  destruct ns; try done. simpl in Hv. by injection Hv as ->.
Qed.

Lemma patch_extracted_stored root f x w :
  provided root f = Some x -> stored f x w (patch (extracted root) w).
Proof. intros Hp. destruct f; simpl; by rewrite Hp. Qed.

(** X5.  The types of the fields are not checked.  When a parse succeeds
    on a document in which a field is a boolean, the field of the snapshot
    is 1.0 for [true] and 0.0 for [false]. *)
Theorem boolean_is_stored_as_number
    (reader : string -> Result (Json.Value + string)) (jsonData : string)
    (root ns : Json.Value) (f : Field) (b : bool) (d : Driver) :
  reader jsonData = Ret (inl root) ->
  extractable root = true ->
  namespace root (fst (source f)) ns ->
  Json.find ns (snd (source f)) = Ret (Some (Json.booleanValue b)) ->
  fst (parseJSONData reader jsonData d) = Ret true
  /\ stored f (if b then d1 else d0) (weatherData d)
            (weatherData (snd (parseJSONData reader jsonData d))).
Proof.
  intros Hr Hx Hns Hb.
  destruct (parseJSONData_success reader jsonData root d Hr Hx)
    as (evs & _ & ->).
  split; [done|]. simpl.
  apply patch_extracted_stored.
  by rewrite (provided_member root f ns _ Hns Hb).
Qed.

Lemma boolean_is_stored_as_number_witness :
  temperature (weatherData (snd (parseJSONData wider_reader text_true amsky01_api)))
  = S754_finite false 4503599627370496 (-52).
Proof.
  exact (proj2 (boolean_is_stored_as_number wider_reader text_true tree_true
                  (Json.objectValue [("temp", Json.booleanValue true)])
                  f_temperature true amsky01_api eq_refl eq_refl
                  (conj eq_refl eq_refl) eq_refl)).
Defined.

(** X6.  The snapshot remembers.  After two parses that succeed, a field
    holds the value of the second document if that provides one, else the
    value of the first if that provides one, else the value it had before;
    no field is reset for being absent from the latest document. *)
Theorem later_document_overrides
    (reader : string -> Result (Json.Value + string)) (first second : string)
    (root1 root2 : Json.Value) (d : Driver) :
  reader first = Ret (inl root1) -> extractable root1 = true ->
  reader second = Ret (inl root2) -> extractable root2 = true ->
  let w := weatherData d in
  let d' := snd (parseJSONData reader first d) in
  let w'' := weatherData (snd (parseJSONData reader second d')) in
  forall f,
    match provided root2 f, provided root1 f with
    | Some x, _ => stored f x (weatherData d') w''
    | None, Some x => stored f x w w''
    | None, None => kept f w w''
    end.
Proof.
  intros H1 X1 H2 X2 w d' w'' f. subst w'' d' w.
  destruct (parseJSONData_success reader first root1 d H1 X1)
    as (evs & _ & ->). simpl snd.
  destruct (parseJSONData_success reader second root2
              (touch (extracted root1) evs d) H2 X2) as (evs' & _ & ->).
  simpl.
  destruct (provided root2 f) as [x|] eqn:P2.
  - destruct f; simpl; by rewrite P2.
  - destruct (provided root1 f) as [x|] eqn:P1;
      destruct f; simpl; by rewrite P2, P1.
Qed.

Lemma later_document_overrides_witness :
  let d' := snd (parseJSONData wider_reader text_temp amsky01_api) in
  let w'' := weatherData (snd (parseJSONData wider_reader text_lux d')) in
  temperature w'' = S754_finite false 7036874417766400 (-49)
  /\ lux w'' = double_of_Z 120
  /\ humidity w'' = d0.
Proof.
  intros d' w''.
  pose proof (later_document_overrides wider_reader text_temp text_lux
                tree_temp tree_lux amsky01_api eq_refl eq_refl eq_refl eq_refl)
    as H.
  split; [exact (H f_temperature)|]. split; [exact (H f_lux)|].
  exact (H f_humidity).
Defined.

(** ** The calls of a poll *)

Ltac run_publishes :=
  unfold bind, lift, when, ret, call,
    Json.isMember, Json.subscript, Json.find;
  simpl;
  try match goal with
      | |- context [Json.lookup_member ?k ?ms] =>
          destruct (Json.lookup_member k ms) as [[]|]
      end;
  repeat (simpl;
          match goal with
          | |- context [Json.lookup_member ?k ?ms] =>
              destruct (Json.lookup_member k ms) as [?|]
          | |- context [Json.isNull ?v] => is_var v; destruct (Json.isNull v)
          | |- context [Json.asDouble ?v] =>
              is_var v; destruct (Json.asDouble v)
          end);
  simpl; rewrite <- ?app_assoc;
  first [ by exists []; rewrite app_nil_r
        | by eexists; split; [reflexivity|]; repeat constructor ].

Lemma parse_hygro_data_publishes root d :
  exists evs,
    calls (snd (parse_hygro_data root d)) = (calls d ++ evs)%list
    /\ Forall (publication hygro_parameters) evs.
Proof.
  unfold parse_hygro_data. destruct d as [[] ? ? ? ? ? ? ? ? ? ? cs].
  destruct root; run_publishes.
Qed.

Lemma parse_light_data_publishes root d :
  exists evs,
    calls (snd (parse_light_data root d)) = (calls d ++ evs)%list
    /\ Forall (publication light_parameters) evs.
Proof.
  unfold parse_light_data. destruct d as [[] ? ? ? ? ? ? ? ? ? ? cs].
  destruct root; run_publishes.
Qed.

Lemma parse_cloud_data_publishes root d :
  exists evs,
    calls (snd (parse_cloud_data root d)) = (calls d ++ evs)%list
    /\ Forall (publication cloud_parameters) evs.
Proof.
  unfold parse_cloud_data. destruct d as [[] ? ? ? ? ? ? ? ? ? ? cs].
  destruct root; run_publishes.
Qed.

Lemma publication_mono names names' c :
  names ⊆ names' -> publication names c -> publication names' c.
Proof. intros Hs. destruct c; try done. simpl. apply Hs. Qed.

Lemma Forall_publication_mono names names' evs :
  names ⊆ names' ->
  Forall (publication names) evs -> Forall (publication names') evs.
Proof.
  intros Hs Hf. eapply Forall_impl; [exact Hf|].
  intros c. by apply publication_mono.
Qed.

(** The calls of a parse: publications, then the closing line. *)
Lemma parseJSONData_calls reader jsonData d :
  exists pubs msg,
    Forall (publication parser_parameters) pubs
    /\ calls (snd (parseJSONData reader jsonData d))
       = (calls d ++ pubs
          ++ closing_line (parse_result reader jsonData) msg)%list.
Proof.
  pose proof (parseJSONData_returns reader jsonData d) as [Hret _].
  unfold parse_result in *.
  destruct (reader jsonData) as [[root|errs]|what] eqn:Hr.
  3:{ unfold parseJSONData. rewrite Hr.
      exists [], No_valid_weather_data_available. split; [done|].
      simpl. by rewrite app_nil_r. }
  2:{ unfold parseJSONData. rewrite Hr, bind_lift_ret.
      exists [], (Failed_to_parse_JSON errs). split; [done|].
      by destruct d. }
  rewrite (parseJSONData_stages reader jsonData root d Hr) in *.
  cbv zeta in *.
  destruct (parse_hygro_data_publishes root d) as (e1 & C1 & F1).
  set (d1 := snd (parse_hygro_data root d)) in *.
  destruct (parse_light_data_publishes root d1) as (e2 & C2 & F2).
  set (d2 := snd (parse_light_data root d1)) in *.
  destruct (parse_cloud_data_publishes root d2) as (e3 & C3 & F3).
  set (d3 := snd (parse_cloud_data root d2)) in *.
  apply (Forall_publication_mono _ parser_parameters) in F1, F2, F3;
    try (intros x Hx; unfold parser_parameters; rewrite !elem_of_app; auto).
  destruct (fst (parse_hygro_data root d)) as [[]|x1];
    [destruct (fst (parse_light_data root d1)) as [[]|x2];
       [destruct (fst (parse_cloud_data root d2)) as [[]|x3]|]|].
  all: simpl in Hret; injection Hret as <-; simpl.
  all: rewrite ?C3, ?C2, ?C1, <- ?app_assoc.
  - eexists (e1 ++ e2 ++ e3)%list, _. split; [by rewrite !Forall_app|].
    by rewrite <- !app_assoc.
  - eexists (e1 ++ e2 ++ e3)%list, _. split; [by rewrite !Forall_app|].
    by rewrite <- !app_assoc.
  - eexists (e1 ++ e2)%list, _. split; [by rewrite !Forall_app|].
    by rewrite <- !app_assoc.
  - by eexists e1, _.
Qed.

(** The calls of a poll: the transfer if libcurl gives a handle; if it
    completes with status 200 the body at level [DEBUG] and the calls of
    the parse; in every other case one line at level [ERROR]. *)
Lemma readHTTPData_calls reader net d :
  let t := net (apiUrl d) in
  exists pubs msg,
    Forall (publication parser_parameters) pubs
    /\ calls (snd (readHTTPData reader net d))
       = (calls d ++ poll_calls t (apiUrl d) pubs (poll_result reader t) msg)%list.
Proof.
  unfold readHTTPData, poll_calls, poll_result, transferred, LOG_ERROR,
    LOG_DEBUG, emit.
  rewrite bind_gets. cbv zeta.
  destruct (curl (net (apiUrl d))); lazy beta iota delta [negb andb].
  2:{ rewrite bind_call. by exists [], Failed_to_initialize_CURL. }
  rewrite bind_call.
  destruct (res (net (apiUrl d)) =? CURLE_OK); lazy beta iota delta [negb andb].
  2:{ rewrite bind_call. eexists [], _. split; [done|]. simpl.
      by rewrite <- app_assoc. }
  destruct (http_code (net (apiUrl d)) =? 200);
    lazy beta iota delta [negb andb].
  2:{ rewrite bind_call. eexists [], _. split; [done|]. simpl.
      by rewrite <- app_assoc. }
  rewrite bind_call.
  match goal with |- context [parseJSONData _ ?s ?d2] =>
    destruct (parseJSONData_calls reader s d2) as (pubs & msg & F & ->) end.
  exists pubs, msg. split; [done|]. simpl. by rewrite <- !app_assoc.
Qed.

Lemma omap_publication {A} (g : HostCall -> option A) names evs :
  (forall name v, g (setParameterValue name v) = None) ->
  Forall (publication names) evs -> omap g evs = [].
Proof.
  intros Hg. induction 1 as [|c evs Hc _ IH]; [done|].
  destruct c; try done. simpl. by rewrite Hg.
Qed.

Lemma published_publication names evs :
  Forall (publication names) evs -> Forall (.∈ names) (published evs).
Proof.
  induction 1 as [|c evs Hc _ IH]; [constructor|].
  destruct c; try done. by constructor.
Qed.

(** ** [ISNewText] *)

Lemma IUUpdateText_ApiUrlTP_run texts names d :
  IUUpdateText_ApiUrlTP texts names d
  = (Ret tt,
     if forallb (String.eqb "API_URL") names
     then mkDriver (weatherData d) (apiUrl d) (text_given texts names d)
                   (ApiUrlTP_s d) (StatusT1 d) (StatusTP_s d)
                   (ApiUrlTP_name d) (StatusTP_name d) (deviceName d)
                   (connected d) (pollingPeriod d) (calls d)
     else mkDriver (weatherData d) (apiUrl d) (ApiUrlT0 d)
                   IPS_IDLE (StatusT1 d) (StatusTP_s d)
                   (ApiUrlTP_name d) (StatusTP_name d) (deviceName d)
                   (connected d) (pollingPeriod d)
                   (calls d ++ [IDSetText (ApiUrlTP_name d) IPS_IDLE])).
Proof.
  unfold IUUpdateText_ApiUrlTP, text_given.
  destruct (forallb _ names); [|by destruct d].
  generalize (take (length names) texts); intros l.
  revert d; induction l as [|text l IH]; intros d; [by destruct d|].
  simpl. unfold bind at 1. simpl. rewrite IH. simpl.
  rewrite last_cons. by destruct (last l).
Qed.

Lemma ISNewText_run inherited dev name texts names d :
  ISNewText inherited dev name texts names d
  = if addressed dev name d
    then (Ret true,
          mkDriver (weatherData d) (text_given texts names d)
                   (text_given texts names d) IPS_OK (StatusT1 d)
                   (StatusTP_s d) (ApiUrlTP_name d) (StatusTP_name d)
                   (deviceName d) (connected d) (pollingPeriod d)
                   (calls d
                    ++ (if forallb (String.eqb "API_URL") names then []
                        else [IDSetText (ApiUrlTP_name d) IPS_IDLE])
                    ++ [IDSetText (ApiUrlTP_name d) IPS_OK;
                        LOG INFO (API_URL_set_to (text_given texts names d))]))
    else (Ret inherited,
          after_call (Weather_ISNewText dev name texts names) d).
Proof.
  unfold ISNewText, addressed. rewrite !bind_gets.
  destruct (_ && _); [|done].
  unfold bind at 1. rewrite IUUpdateText_ApiUrlTP_run.
  unfold text_given.
  destruct (forallb _ names); cbv [bind gets set_apiUrl set_ApiUrlTP_s emit call ret];
    simpl; by rewrite <- !app_assoc.
Qed.

(** ** Every method as a change of the driver *)

Lemma initProperties_run d :
  initProperties d
  = (Ret true,
     mkDriver (weatherData d) (apiUrl d) (apiUrl d) IPS_IDLE "Disconnected"
       IPS_IDLE "API_CONFIG" "DEVICE_STATUS"
       (deviceName d) (connected d) (pollingPeriod d)
       (calls d
        ++ [Weather_initProperties;
            addParameter "WEATHER_TEMPERATURE" "Temperature (°C)" (-50) 80 15;
            addParameter "WEATHER_HUMIDITY" "Humidity (%)" 0 100 15;
            addParameter "WEATHER_DEW_POINT" "Dew Point (°C)" (-50) 50 15;
            addParameter "WEATHER_LIGHT_LUX" "Light (lux)" 0 100000 15;
            addParameter "WEATHER_SKY_BRIGHTNESS"
                         "Sky Brightness (mag/arcsec²)" 10 25 15;
            addParameter "WEATHER_SKY_TEMP_CENTER" "Sky Temp Center (°C)"
                         (-50) 50 15;
            setCriticalParameter "WEATHER_TEMPERATURE";
            setCriticalParameter "WEATHER_HUMIDITY";
            setCriticalParameter "WEATHER_DEW_POINT";
            setCriticalParameter "WEATHER_SKY_TEMP_CENTER";
            addDebugControl; addConfigurationControl; addAuxControls])).
Proof.
  destruct d as [w url text s1 status s2 n1 n2 name c period cs].
  lazy [initProperties bind gets emit call ret set_ApiUrlT0 set_ApiUrlTP_s
        set_StatusT1 set_StatusTP_s set_ApiUrlTP_name set_StatusTP_name
        weatherData apiUrl ApiUrlT0 ApiUrlTP_s StatusT1 StatusTP_s
        ApiUrlTP_name StatusTP_name deviceName connected pollingPeriod calls].
  by rewrite <- !app_assoc.
Qed.

Lemma updateProperties_run d :
  updateProperties d
  = (Ret true,
     if connected d
     then mkDriver (weatherData d) (apiUrl d) (ApiUrlT0 d) (ApiUrlTP_s d)
            "Connected - Reading API" IPS_OK (ApiUrlTP_name d)
            (StatusTP_name d) (deviceName d) (connected d) (pollingPeriod d)
            (calls d
             ++ [Weather_updateProperties; defineProperty (StatusTP_name d);
                 defineProperty (ApiUrlTP_name d);
                 IDSetText (StatusTP_name d) IPS_OK;
                 LOG INFO Device_connected_starting_API_polling;
                 SetTimer 2000])
     else mkDriver (weatherData d) (apiUrl d) (ApiUrlT0 d) (ApiUrlTP_s d)
            (StatusT1 d) (StatusTP_s d) (ApiUrlTP_name d) (StatusTP_name d)
            (deviceName d) (connected d) (pollingPeriod d)
            (calls d
             ++ [Weather_updateProperties; deleteProperty (StatusTP_name d);
                 deleteProperty (ApiUrlTP_name d);
                 LOG INFO Device_disconnected])).
Proof.
  destruct d as [w url text s1 status s2 n1 n2 name [] period cs];
    lazy [updateProperties bind gets emit call ret LOG_INFO set_StatusT1
          set_StatusTP_s weatherData apiUrl ApiUrlT0 ApiUrlTP_s StatusT1
          StatusTP_s ApiUrlTP_name StatusTP_name deviceName connected
          pollingPeriod calls];
    by rewrite <- !app_assoc.
Qed.

Lemma Disconnect_run d :
  Disconnect d = (Ret true, after_call (LOG INFO Disconnected_from_API) d).
Proof. done. Qed.

Lemma updateWeather_run d :
  updateWeather d
  = if dataValid (weatherData d) then (Ret IPS_OK, d)
    else (Ret IPS_ALERT, after_call (LOG WARN No_valid_weather_data_available) d).
Proof.
  unfold updateWeather. rewrite bind_gets. by destruct (dataValid _).
Qed.

Lemma readHTTPData_trace reader net d :
  let t := net (apiUrl d) in
  exists p pubs msg,
    Forall (publication parser_parameters) pubs
    /\ readHTTPData reader net d
       = (poll_result reader t,
          touch p (poll_calls t (apiUrl d) pubs (poll_result reader t) msg) d).
Proof.
  intros t.
  destruct (readHTTPData_run reader net d) as (p & evs & _ & E & _).
  destruct (readHTTPData_calls reader net d) as (pubs & msg & F & C).
  cbv zeta in *. fold t in E, C |- *.
  exists p, pubs, msg. split; [done|].
  rewrite E in C |- *. unfold touch in C. cbn [snd calls] in C.
  apply app_inv_head in C. by rewrite C.
Qed.

Lemma Connect_trace reader net d :
  let t := net (apiUrl d) in
  exists p pubs msg,
    Forall (publication parser_parameters) pubs
    /\ Connect reader net d
       = (poll_result reader t,
          touch p
            ([LOG INFO Attempting_to_connect_to_API]
             ++ poll_calls t (apiUrl d) pubs (poll_result reader t) msg
             ++ match poll_result reader t with
                | Ret true => [LOG INFO Successfully_connected_to_API]
                | Ret false =>
                    [LOG ERROR (Failed_to_connect_to_API_at (apiUrl d))]
                | Throw _ => []
                end) d).
Proof.
  intros t. unfold Connect, LOG_INFO, emit. rewrite bind_call.
  set (d1 := touch no_patch _ d).
  destruct (readHTTPData_trace reader net d1) as (p & pubs & msg & F & E).
  cbv zeta in E. change (apiUrl d1) with (apiUrl d) in E. fold t in E.
  exists (over (over no_patch p) no_patch), pubs, msg. split; [done|].
  unfold bind at 1. rewrite E.
  destruct (poll_result reader t) as [[]|what].
  1,2: rewrite bind_call; unfold ret.
  all: unfold d1; rewrite !touch_touch.
  all: by rewrite <- ?app_assoc, ?app_nil_r.
Qed.

Lemma TimerHit_trace reader net d :
  let t := net (apiUrl d) in
  let r := poll_result reader t in
  exists p pubs msg,
    Forall (publication parser_parameters) pubs
    /\ TimerHit reader net d
       = (if connected d
          then match r with Throw what => Throw what | Ret _ => Ret tt end
          else Ret tt,
          touch (if connected d then p else no_patch)
            ((if connected d then poll_calls t (apiUrl d) pubs r msg else [])
             ++ (if connected d && throws r then []
                 else [SetTimer (pollingPeriod d)])) d).
Proof.
  intros t r.
  destruct (readHTTPData_trace reader net d) as (p & pubs & msg & F & E).
  cbv zeta in E. fold t in E. fold r in E.
  exists p, pubs, msg. split; [done|].
  unfold TimerHit. rewrite bind_gets.
  destruct (connected d); lazy beta iota delta [negb andb].
  - unfold bind. rewrite E.
    destruct r as [ok|what]; unfold call, touch, throws; cbn [snd calls].
    + simpl. by rewrite <- app_assoc.
    + by rewrite app_nil_r.
  - rewrite <- (touch_nothing d) at 1. unfold call, touch. simpl.
    by rewrite patch_no_patch, app_nil_r.
Qed.

Lemma readHTTPData_untransferred reader net d :
  let t := net (apiUrl d) in
  transferred t = false ->
  readHTTPData reader net d
  = (Ret false,
     touch no_patch
       ((if curl t then [curl_easy_perform (apiUrl d)] else [])
        ++ [LOG ERROR (transport_error t)]) d).
Proof.
  unfold readHTTPData, transferred, transport_error, LOG_ERROR, LOG_DEBUG, emit.
  rewrite bind_gets. cbv zeta.
  destruct (curl (net (apiUrl d))); lazy beta iota delta [negb andb].
  2:{ intros _. by rewrite bind_call. }
  rewrite bind_call.
  destruct (res (net (apiUrl d)) =? CURLE_OK); lazy beta iota delta [negb andb].
  2:{ intros _. rewrite bind_call. unfold ret. by rewrite touch_touch. }
  destruct (http_code (net (apiUrl d)) =? 200);
    lazy beta iota delta [negb andb]; [done|].
  intros _. rewrite bind_call. unfold ret. by rewrite touch_touch.
Qed.

Lemma errors_app cs cs' : errors (cs ++ cs') = (errors cs ++ errors cs')%list.
Proof. apply omap_app. Qed.

Lemma requested_app cs cs' : requested (cs ++ cs') = (requested cs ++ requested cs')%list.
Proof. apply omap_app. Qed.

Lemma timers_app cs cs' : timers (cs ++ cs') = (timers cs ++ timers cs')%list.
Proof. apply omap_app. Qed.

Lemma registered_app cs cs' : registered (cs ++ cs') = (registered cs ++ registered cs')%list.
Proof. apply omap_app. Qed.

Lemma published_app cs cs' : published (cs ++ cs') = (published cs ++ published cs')%list.
Proof. apply omap_app. Qed.

Lemma errors_publication names evs :
  Forall (publication names) evs -> errors evs = [].
Proof. by apply omap_publication. Qed.

Lemma requested_publication names evs :
  Forall (publication names) evs -> requested evs = [].
Proof. by apply omap_publication. Qed.

Lemma timers_publication names evs :
  Forall (publication names) evs -> timers evs = [].
Proof. by apply omap_publication. Qed.

Lemma registered_publication names evs :
  Forall (publication names) evs -> registered evs = [].
Proof. by apply omap_publication. Qed.

Lemma published_poll_calls t url pubs r msg :
  published (poll_calls t url pubs r msg) = published pubs.
Proof.
  unfold poll_calls. rewrite !published_app.
  destruct (curl t), (transferred t), r as [[]|?]; simpl;
    by rewrite app_nil_r.
Qed.

Lemma errors_poll_calls t url pubs names r msg :
  Forall (publication names) pubs ->
  errors (poll_calls t url pubs r msg)
  = match r with Ret false => [msg] | _ => [] end.
Proof.
  intros F. unfold poll_calls.
  rewrite !errors_app.
  rewrite (errors_publication _ _ F).
  by destruct (curl t), (transferred t), r as [[]|?].
Qed.

Lemma requested_poll_calls t url pubs names r msg :
  Forall (publication names) pubs ->
  requested (poll_calls t url pubs r msg) = if curl t then [url] else [].
Proof.
  intros F. unfold poll_calls.
  rewrite !requested_app.
  rewrite (requested_publication _ _ F).
  by destruct (curl t), (transferred t), r as [[]|?].
Qed.

Lemma timers_poll_calls t url pubs names r msg :
  Forall (publication names) pubs ->
  timers (poll_calls t url pubs r msg) = [].
Proof.
  intros F. unfold poll_calls.
  rewrite !timers_app.
  rewrite (timers_publication _ _ F).
  by destruct (curl t), (transferred t), r as [[]|?].
Qed.

Lemma registered_poll_calls t url pubs names r msg :
  Forall (publication names) pubs ->
  registered (poll_calls t url pubs r msg) = [].
Proof.
  intros F. unfold poll_calls.
  rewrite !registered_app.
  rewrite (registered_publication _ _ F).
  by destruct (curl t), (transferred t), r as [[]|?].
Qed.

(** X7.  A poll that returns logs at level [ERROR] exactly when it returns
    [false], and then one line; [Connect] adds the line that names the
    URL.  When the transfer does not complete with status 200 the line is
    the one of the first failure: no handle, then the code of libcurl,
    then the HTTP status.  An exception of the reader leaves the poll and
    [Connect] with no line at level [ERROR]. *)
Theorem poll_logs_error_iff_failed
    (reader : string -> Result (Json.Value + string)) (net : string -> Transfer)
    (d : Driver) :
  let t := net (apiUrl d) in
  fst (readHTTPData reader net d) = poll_result reader t
  /\ fst (Connect reader net d) = poll_result reader t
  /\ (exists msg,
        errors (calls (snd (readHTTPData reader net d)))
        = (errors (calls d)
           ++ match poll_result reader t with
              | Ret false => [msg]
              | _ => []
              end)%list
        /\ (transferred t = false -> msg = transport_error t))
  /\ (exists msg,
        errors (calls (snd (Connect reader net d)))
        = (errors (calls d)
           ++ match poll_result reader t with
              | Ret false => [msg; Failed_to_connect_to_API_at (apiUrl d)]
              | _ => []
              end)%list
        /\ (transferred t = false -> msg = transport_error t)).
Proof.
  intros t.
  split; [by destruct (readHTTPData_run reader net d) as (p & evs & _ & -> & _)|].
  split; [by destruct (Connect_run reader net d) as (p & evs & -> & _)|].
  split.
  - destruct (transferred t) eqn:Ht.
    + destruct (readHTTPData_trace reader net d) as (p & pubs & msg & F & E).
      cbv zeta in E. fold t in E. exists msg. split; [|done].
      rewrite E. unfold touch. cbn [snd calls]. rewrite errors_app. f_equal.
      by rewrite (errors_poll_calls _ _ _ _ _ _ F).
    + exists (transport_error t). split; [|done].
      rewrite (readHTTPData_untransferred reader net d Ht). fold t.
      unfold poll_result. rewrite Ht. simpl.
      rewrite !errors_app. by destruct (curl t).
  - destruct (transferred t) eqn:Ht.
    + destruct (Connect_trace reader net d) as (p & pubs & msg & F & E).
      cbv zeta in E. fold t in E. exists msg. split; [|done].
      rewrite E. unfold touch. cbn [snd calls]. rewrite !errors_app.
      rewrite (errors_poll_calls _ _ _ _ _ _ F).
      by destruct (poll_result reader t) as [[]|what].
    + exists (transport_error t). split; [|done].
      unfold Connect, LOG_INFO, emit. rewrite bind_call.
      unfold bind at 1.
      rewrite (readHTTPData_untransferred reader net
                 (touch no_patch [LOG INFO Attempting_to_connect_to_API] d) Ht).
      rewrite bind_call. unfold poll_result, ret. fold t. rewrite Ht.
      unfold touch. cbn [snd calls apiUrl andb].
      rewrite !errors_app, <- !app_assoc. fold t.
      by destruct (curl t).
Qed.

Lemma poll_logs_error_iff_failed_witness :
  let net := fun _ : string => mkTransfer true CURLE_OK 404 "Not Found" in
  errors (calls (snd (readHTTPData sample_reader net amsky01_api)))
  = [HTTP_request_failed_with_code 404].
Proof.
  intros net.
  destruct (poll_logs_error_iff_failed sample_reader net amsky01_api)
    as (_ & _ & (msg & E & M) & _).
  rewrite E, (M eq_refl). reflexivity.
Defined.

(** ** Every callback as a change of the driver *)

(** The calls a callback adds to the trace, seen through the views. *)
Lemma run_trace reader cb d :
  exists evs,
    calls (run reader cb d) = (calls d ++ evs)%list
    /\ requested evs = match polled cb d with
                       | Some t => if curl t then [apiUrl d] else []
                       | None => []
                       end
    /\ timers evs = match cb with
                    | cb_updateProperties => if connected d then [2000] else []
                    | cb_TimerHit net =>
                        if connected d
                           && throws (poll_result reader (net (apiUrl d)))
                        then [] else [pollingPeriod d]
                    | _ => []
                    end
    /\ Forall (.∈ parser_parameters) (published evs)
    /\ registered evs = if is_initProperties cb then parser_parameters else [].
Proof.
  destruct cb as [| |net| |net|inherited dev name texts names| |c period];
    unfold run, polled, is_initProperties.
  - rewrite initProperties_run. eexists. split; [reflexivity|].
    split; [done|]. split; [done|]. split; [by constructor|done].
  - rewrite updateProperties_run.
    destruct (connected d); (eexists; split; [reflexivity|]);
      (split; [done|]; split; [done|]; split; [by constructor|done]).
  - destruct (Connect_trace reader net d) as (p & pubs & msg & F & E).
    cbv zeta in E. rewrite E. eexists. split; [reflexivity|].
    rewrite !requested_app, !timers_app, !published_app, !registered_app.
    rewrite (requested_poll_calls _ _ _ _ _ _ F).
    rewrite (timers_poll_calls _ _ _ _ _ _ F).
    rewrite (registered_poll_calls _ _ _ _ _ _ F).
    rewrite published_poll_calls.
    destruct (poll_result _ _) as [[]|what], (curl _); simpl;
      rewrite ?app_nil_r.
    all: split; [done|]; split; [done|].
    all: split; [by apply published_publication|done].
  - eexists. split; [reflexivity|].
    split; [done|]. split; [done|]. split; [by constructor|done].
  - destruct (TimerHit_trace reader net d) as (p & pubs & msg & F & E).
    cbv zeta in E. rewrite E. eexists. split; [reflexivity|].
    rewrite !requested_app, !timers_app, !published_app, !registered_app.
    destruct (connected d).
    + rewrite (requested_poll_calls _ _ _ _ _ _ F).
      rewrite (timers_poll_calls _ _ _ _ _ _ F).
      rewrite (registered_poll_calls _ _ _ _ _ _ F).
      rewrite published_poll_calls.
      destruct (poll_result _ _) as [ok|what], (curl _); simpl;
        rewrite ?app_nil_r.
      all: split; [done|]; split; [done|].
      all: split; [by apply published_publication|done].
    + split; [done|]. split; [done|]. split; [by constructor|done].
  - rewrite ISNewText_run.
    destruct (addressed dev name d); [destruct (forallb _ names)|];
      (eexists; split; [reflexivity|]);
      (split; [done|]; split; [done|]; split; [by constructor|done]).
  - rewrite updateWeather_run. destruct (dataValid _).
    + exists []. split; [by rewrite app_nil_r|].
      split; [done|]. split; [done|]. split; [by constructor|done].
    + eexists. split; [reflexivity|].
      split; [done|]. split; [done|]. split; [by constructor|done].
  - exists []. split; [by rewrite app_nil_r|].
    split; [done|]. split; [done|]. split; [by constructor|done].
Qed.

(** The members a callback sets beside the snapshot and the trace. *)
Lemma run_members reader cb d :
  deviceName (run reader cb d) = deviceName d
  /\ apiUrl (run reader cb d)
     = match cb with
       | cb_ISNewText _ dev name texts names =>
           if addressed dev name d then text_given texts names d else apiUrl d
       | _ => apiUrl d
       end
  /\ ApiUrlT0 (run reader cb d)
     = match cb with
       | cb_initProperties => apiUrl d
       | cb_ISNewText _ dev name texts names =>
           if addressed dev name d then text_given texts names d
           else ApiUrlT0 d
       | _ => ApiUrlT0 d
       end
  /\ StatusT1 (run reader cb d)
     = match cb with
       | cb_initProperties => "Disconnected"
       | cb_updateProperties =>
           if connected d then "Connected - Reading API" else StatusT1 d
       | _ => StatusT1 d
       end
  /\ connected (run reader cb d)
     = match cb with cb_framework c _ => c | _ => connected d end
  /\ pollingPeriod (run reader cb d)
     = match cb with cb_framework _ period => period | _ => pollingPeriod d end.
Proof.
  destruct cb as [| |net| |net|inherited dev name texts names| |c period];
    unfold run.
  - by rewrite initProperties_run.
  - rewrite updateProperties_run. by destruct (connected d).
  - destruct (Connect_trace reader net d) as (p & pubs & msg & F & E).
    cbv zeta in E. by rewrite E.
  - done.
  - destruct (TimerHit_trace reader net d) as (p & pubs & msg & F & E).
    cbv zeta in E. by rewrite E.
  - rewrite ISNewText_run. by destruct (addressed dev name d).
  - rewrite updateWeather_run. by destruct (dataValid _).
  - done.
Qed.

Lemma runs_cons reader cb cbs d :
  runs reader (cb :: cbs) d = runs reader cbs (run reader cb d).
Proof. done. Qed.

(** The calls of a sequence of callbacks publish parameters of the parser
    only. *)
Lemma runs_published reader cbs d :
  exists evs,
    calls (runs reader cbs d) = (calls d ++ evs)%list
    /\ Forall (.∈ parser_parameters) (published evs).
Proof.
  revert d; induction cbs as [|cb cbs IH]; intros d.
  { exists []. split; [by rewrite app_nil_r|constructor]. }
  rewrite runs_cons.
  destruct (run_trace reader cb d) as (e1 & C1 & _ & _ & F1 & _).
  destruct (IH (run reader cb d)) as (e2 & C2 & F2).
  exists (e1 ++ e2)%list. split; [by rewrite C2, C1, app_assoc|].
  rewrite published_app. by apply Forall_app.
Qed.

(** The text of the property is the URL, from [initProperties] on. *)
Lemma run_text_is_url reader cb d :
  apiUrl d = ApiUrlT0 d ->
  apiUrl (run reader cb d) = ApiUrlT0 (run reader cb d).
Proof.
  intros H. destruct (run_members reader cb d) as (_ & -> & -> & _).
  destruct cb; try done. by destruct (addressed _ _ _).
Qed.

(** X8.  A transfer is started by [Connect], and by [TimerHit] when the
    device is connected, and by nothing else; it is one transfer, from the
    URL held in [apiUrl], and none if libcurl gives no handle. *)
Theorem transfer_only_when_polling
    (reader : string -> Result (Json.Value + string)) (cb : Callback) (d : Driver) :
  requested (calls (run reader cb d))
  = (requested (calls d)
     ++ match polled cb d with
        | Some t => if curl t then [apiUrl d] else []
        | None => []
        end)%list.
Proof.
  destruct (run_trace reader cb d) as (evs & -> & <- & _).
  apply requested_app.
Qed.

(** X9.  The driver calls [SetTimer] in [updateProperties] on a connected
    device, with 2000 ms, and in [TimerHit], with the polling period of
    the framework, once each; in no other callback does it call
    [SetTimer] itself.  The one [TimerHit] that does not reach its call is
    that of a connected device whose poll is left by an exception of the
    reader. *)
Theorem timer_armed_by
    (reader : string -> Result (Json.Value + string)) (cb : Callback) (d : Driver) :
  timers (calls (run reader cb d))
  = (timers (calls d)
     ++ match cb with
        | cb_updateProperties => if connected d then [2000] else []
        | cb_TimerHit net =>
            if connected d && throws (fst (readHTTPData reader net d))
            then [] else [pollingPeriod d]
        | _ => []
        end)%list.
Proof.
  destruct (run_trace reader cb d) as (evs & -> & _ & T & _).
  rewrite timers_app, T. destruct cb; try done.
  by destruct (readHTTPData_run reader net d) as (p & evs' & _ & -> & _).
Qed.

(** X10.  Every parameter the driver publishes is one [initProperties] has
    registered: on a driver that has published nothing, after
    [initProperties] and any callbacks, the names given to
    [setParameterValue] are among those given to [addParameter]. *)
Theorem published_parameters_are_registered
    (reader : string -> Result (Json.Value + string)) (cbs : list Callback)
    (d : Driver) :
  published (calls d) = [] ->
  let d' := runs reader (cb_initProperties :: cbs) d in
  Forall (.∈ registered (calls d')) (published (calls d')).
Proof.
  intros H d'. unfold d'. rewrite runs_cons.
  destruct (runs_published reader cbs (run reader cb_initProperties d))
    as (evs & -> & F).
  unfold run. rewrite initProperties_run. cbn [snd calls].
  rewrite !published_app, !registered_app, H.
  eapply Forall_impl; [exact F|].
  intros x Hx. rewrite !elem_of_app. left. by right.
Qed.

Lemma published_parameters_are_registered_witness :
  let d' := runs sample_reader
              [cb_initProperties; cb_Connect (answer text_full);
               cb_framework true 1000; cb_updateProperties;
               cb_TimerHit (answer text_hygro)] amsky01_api in
  Forall (.∈ registered (calls d')) (published (calls d')).
Proof.
  exact (published_parameters_are_registered sample_reader
           [cb_Connect (answer text_full); cb_framework true 1000;
            cb_updateProperties; cb_TimerHit (answer text_hygro)]
           amsky01_api eq_refl).
Defined.

(** X11.  Once [initProperties] has filled the property, a new text for
    [API_URL] of the property [API_CONFIG] of this device becomes the URL
    as it is, whatever the text: [ISNewText] returns [true], [apiUrl] and
    the text of the property hold the last text sent, the property is
    [IPS_OK], the client is told and the URL is logged; the snapshot is as
    before. *)
Theorem ISNewText_sets_url
    (inherited : bool) (dev : option string) (name : string)
    (texts names : list string) (url : string) (d : Driver) :
  ApiUrlTP_name d = "API_CONFIG" ->
  dev = Some (deviceName d) ->
  name = "API_CONFIG" ->
  forallb (String.eqb "API_URL") names = true ->
  last (take (length names) texts) = Some url ->
  let r := ISNewText inherited dev name texts names d in
  fst r = Ret true
  /\ apiUrl (snd r) = url
  /\ ApiUrlT0 (snd r) = url
  /\ ApiUrlTP_s (snd r) = IPS_OK
  /\ weatherData (snd r) = weatherData d
  /\ calls (snd r)
     = (calls d ++ [IDSetText "API_CONFIG" IPS_OK;
                    LOG INFO (API_URL_set_to url)])%list.
Proof.
  intros Hp -> -> Hn Hl r. unfold r. rewrite ISNewText_run.
  unfold addressed. rewrite Hp, bool_decide_eq_true_2 by done.
  unfold text_given. rewrite Hn, Hl. by cbn.
Qed.

Lemma ISNewText_sets_url_witness :
  let d := snd (initProperties amsky01_api) in
  let r := ISNewText false (Some "AMSKY01 API") "API_CONFIG"
             ["not a url"] ["API_URL"] d in
  fst r = Ret true /\ apiUrl (snd r) = "not a url".
Proof.
  intros d r.
  destruct (ISNewText_sets_url false (Some "AMSKY01 API") "API_CONFIG"
              ["not a url"] ["API_URL"] "not a url" d
              eq_refl eq_refl eq_refl eq_refl eq_refl) as (Hr & Hu & _).
  by split.
Defined.

(** X12.  From [initProperties] on, the text shown in the property
    [API_CONFIG] is the URL the driver polls, whatever callbacks follow. *)
Theorem property_text_is_url
    (reader : string -> Result (Json.Value + string)) (cbs : list Callback)
    (d : Driver) :
  let d' := runs reader (cb_initProperties :: cbs) d in
  ApiUrlT0 d' = apiUrl d'.
Proof.
  intros d'. unfold d'. rewrite runs_cons.
  assert (apiUrl (run reader cb_initProperties d)
          = ApiUrlT0 (run reader cb_initProperties d)) as H.
  { unfold run. by rewrite initProperties_run. }
  revert H. generalize (run reader cb_initProperties d). clear d d'.
  induction cbs as [|cb cbs IH]; intros d H; [done|].
  rewrite runs_cons. apply IH. by apply run_text_is_url.
Qed.

(** X13.  The URL set by [ISNewText] is the one the next poll asks for:
    once [initProperties] has filled the property, after a text for
    [API_URL] a [TimerHit] on a connected device starts one transfer, from
    that text. *)
Theorem new_url_is_polled
    (reader : string -> Result (Json.Value + string)) (net : string -> Transfer)
    (inherited : bool) (dev : option string) (name : string)
    (texts names : list string) (url : string) (d : Driver) :
  ApiUrlTP_name d = "API_CONFIG" ->
  dev = Some (deviceName d) ->
  name = "API_CONFIG" ->
  forallb (String.eqb "API_URL") names = true ->
  last (take (length names) texts) = Some url ->
  connected d = true ->
  curl (net url) = true ->
  requested (calls (runs reader [cb_ISNewText inherited dev name texts names;
                                 cb_TimerHit net] d))
  = (requested (calls d) ++ [url])%list.
Proof.
  intros Hp -> -> Hn Hl Hc Hk. rewrite !runs_cons.
  change (runs reader [] ?x) with x.
  set (cb := cb_ISNewText inherited (Some (deviceName d)) "API_CONFIG"
                          texts names).
  destruct (run_members reader cb d) as (_ & Hu & _ & _ & Hc1 & _).
  destruct (run_trace reader cb d) as (e1 & C1 & R1 & _).
  unfold cb in Hu, Hc1, R1. cbv beta iota in Hu, Hc1, R1. fold cb in Hu, Hc1.
  unfold addressed in Hu.
  rewrite Hp, bool_decide_eq_true_2 in Hu by done.
  unfold text_given in Hu. rewrite Hn, Hl in Hu.
  change (apiUrl (run reader cb d) = url) in Hu.
  rewrite Hc in Hc1. revert Hu Hc1 C1.
  generalize (run reader cb d). intros d1 Hu Hc1 C1.
  destruct (run_trace reader (cb_TimerHit net) d1) as (e2 & -> & R2 & _).
  rewrite C1, !requested_app, R1, R2. unfold polled.
  by rewrite Hc1, Hu, Hk, app_nil_r.
Qed.

Lemma new_url_is_polled_witness :
  let d := runs sample_reader [cb_initProperties; cb_framework true 1000]
                amsky01_api in
  requested (calls (runs sample_reader
                      [cb_ISNewText false (Some "AMSKY01 API") "API_CONFIG"
                                    ["http://sky:8080/data.json"] ["API_URL"];
                       cb_TimerHit (answer text_full)] d))
  = ["http://sky:8080/data.json"].
Proof.
  intros d.
  exact (new_url_is_polled sample_reader (answer text_full) false
           (Some "AMSKY01 API") "API_CONFIG" ["http://sky:8080/data.json"]
           ["API_URL"] "http://sky:8080/data.json" d
           eq_refl eq_refl eq_refl eq_refl eq_refl eq_refl eq_refl).
Defined.

(** X14.  The URL changes on a request of a client only: over callbacks
    none of which is [ISNewText] the URL stays what it was, and every
    transfer started is from that URL. *)
Theorem url_kept_without_ISNewText
    (reader : string -> Result (Json.Value + string)) (cbs : list Callback)
    (d : Driver) :
  forallb (fun cb => negb (is_ISNewText cb)) cbs = true ->
  apiUrl (runs reader cbs d) = apiUrl d
  /\ exists n,
       requested (calls (runs reader cbs d))
       = (requested (calls d) ++ replicate n (apiUrl d))%list.
Proof.
  revert d; induction cbs as [|cb cbs IH]; intros d H.
  { split; [done|]. exists 0%nat. by rewrite app_nil_r. }
  simpl in H. apply andb_prop in H as [Hcb H].
  rewrite runs_cons.
  destruct (IH (run reader cb d) H) as (-> & n & ->).
  destruct (run_members reader cb d) as (_ & -> & _).
  destruct (run_trace reader cb d) as (evs & -> & R & _).
  destruct cb; try done.
  all: split; [done|].
  all: rewrite requested_app, R, <- app_assoc.
  all: unfold polled.
  all: try (exists n; reflexivity).
  all: try destruct (connected d); try destruct (curl _).
  all: first [by exists n | by exists (S n)].
Qed.

Lemma url_kept_without_ISNewText_witness :
  apiUrl (runs sample_reader
            [cb_initProperties; cb_Connect (answer text_full);
             cb_framework true 1000; cb_updateProperties;
             cb_TimerHit (answer text_hygro)] amsky01_api)
  = "http://localhost:8080/data.json".
Proof.
  exact (proj1 (url_kept_without_ISNewText sample_reader
                  [cb_initProperties; cb_Connect (answer text_full);
                   cb_framework true 1000; cb_updateProperties;
                   cb_TimerHit (answer text_hygro)] amsky01_api eq_refl)).
Defined.

(** X15.  The status text is set when the device connects and is not taken
    back: once it reads [Connected - Reading API] it reads so after every
    callback but [initProperties], also after [Disconnect], after
    [updateProperties] on a disconnected device and after polls that
    fail. *)
Theorem status_text_stays_connected
    (reader : string -> Result (Json.Value + string)) (cbs : list Callback)
    (d : Driver) :
  forallb (fun cb => negb (is_initProperties cb)) cbs = true ->
  StatusT1 d = "Connected - Reading API" ->
  StatusT1 (runs reader cbs d) = "Connected - Reading API".
Proof.
  revert d; induction cbs as [|cb cbs IH]; intros d H Hs; [done|].
  simpl in H. apply andb_prop in H as [Hcb H].
  rewrite runs_cons. apply IH; [done|].
  destruct (run_members reader cb d) as (_ & _ & _ & -> & _).
  destruct cb; try done. by destruct (connected d).
Qed.

Lemma status_text_stays_connected_witness :
  let d := runs sample_reader
             [cb_initProperties; cb_framework true 1000; cb_updateProperties]
             amsky01_api in
  StatusT1 (runs sample_reader
              [cb_Disconnect; cb_framework false 1000; cb_updateProperties;
               cb_TimerHit (fun _ => mkTransfer true CURLE_OK 404 "Not Found")]
              d)
  = "Connected - Reading API".
Proof.
  intros d.
  exact (status_text_stays_connected sample_reader
           [cb_Disconnect; cb_framework false 1000; cb_updateProperties;
            cb_TimerHit (fun _ => mkTransfer true CURLE_OK 404 "Not Found")]
           d eq_refl eq_refl).
Defined.
